(** * Sentiment-analysis service: text normalisation, length policy, score mapping

    A shallow embedding of the request pipeline of the service
    ([app/utils/preprocessing.py], [app/models/sentiment.py],
    [app/api/endpoints.py]) and the properties proved about it.

    Modelling choices.
    - A Python [str] is a [list ascii]; a character is a code point below 256
      (the Latin-1 block), for which the classification tables of CPython are
      written out in full.
    - [re.sub] is a left-to-right scan driven by a backtracking matcher with
      the priorities of Python's [re] (first alternative first, greedy and
      lazy repetition).
    - A confidence score is an exact rational ([Q]); [1 - score] and
      [- score] are computed exactly.
    - The external model ([transformers.pipeline]) is a parameter; it either
      returns a label and a score or raises.  Every call made to the analyzer
      and to the model is recorded in an event log. *)

From Stdlib Require Import Ascii String Bool Arith NArith ZArith QArith Lia List.
Import ListNotations.

Local Close Scope Q_scope.
Local Open Scope nat_scope.
Local Open Scope list_scope.
Local Open Scope bool_scope.

(** A string literal read as a Python [str]. *)
Definition str (s : string) : list ascii := list_ascii_of_string s.

(* ===================================================================== *)
(** * Python string primitives *)
(* ===================================================================== *)

Module Py.

Definition code (c : ascii) : N := N_of_ascii c.

Definition in_range (lo hi : N) (c : ascii) : bool :=
  (lo <=? code c)%N && (code c <=? hi)%N.

(** [Py_UNICODE_ISSPACE]: the test behind [str.split()], [str.strip()],
    [str.isspace()] and the [\s] class of [re]. *)
Definition isspace (c : ascii) : bool :=
  in_range 9 13 c || in_range 28 32 c
  || (code c =? 133)%N || (code c =? 160)%N.

(** [Py_UNICODE_ISALNUM] (alphabetic, decimal, digit or numeric). *)
Definition isalnum (c : ascii) : bool :=
  in_range 48 57 c || in_range 65 90 c || in_range 97 122 c
  || (code c =? 170)%N || in_range 178 179 c || (code c =? 181)%N
  || in_range 185 186 c || in_range 188 190 c
  || in_range 192 214 c || in_range 216 246 c || in_range 248 255 c.

(** Lower-case mapping of one code point. *)
Definition tolower (c : ascii) : ascii :=
  if in_range 65 90 c || in_range 192 214 c || in_range 216 222 c
  then ascii_of_N (code c + 32)
  else c.

(** [text.lower()] *)
Definition lower (s : list ascii) : list ascii := map tolower s.

(** Does the string begin with a character that is not whitespace? *)
Definition starts_word (s : list ascii) : bool :=
  match s with
  | c :: _ => negb (isspace c)
  | [] => false
  end.

(** [text.split()]: the maximal runs of non-whitespace characters. *)
Fixpoint split (s : list ascii) : list (list ascii) :=
  match s with
  | [] => []
  | c :: r =>
      if isspace c then split r
      else if starts_word r
           then match split r with
                | w :: ws => (c :: w) :: ws
                | [] => [[c]]
                end
           else [c] :: split r
  end.

(** [sep.join(words)] *)
Fixpoint join (sep : list ascii) (ws : list (list ascii)) : list ascii :=
  match ws with
  | [] => []
  | w :: ws' =>
      match ws' with
      | [] => w
      | _ :: _ => w ++ sep ++ join sep ws'
      end
  end.

Fixpoint lstrip (s : list ascii) : list ascii :=
  match s with
  | [] => []
  | c :: r => if isspace c then lstrip r else s
  end.

Definition rstrip (s : list ascii) : list ascii := rev (lstrip (rev s)).

(** [text.strip()] *)
Definition strip (s : list ascii) : list ascii := rstrip (lstrip s).

(** [len(text.split())] *)
Definition word_count (s : list ascii) : nat := length (split s).

End Py.

(* ===================================================================== *)
(** * Regular expressions: the fragment of [re] used by the service *)
(* ===================================================================== *)

Module Re.

Inductive regex : Type :=
| Eps                                  (* the empty pattern *)
| Chr (c : ascii)                      (* a literal character *)
| Class (p : ascii -> bool)            (* one character of a class *)
| Seq (r1 r2 : regex)                  (* r1 r2 *)
| Alt (r1 r2 : regex)                  (* r1|r2 *)
| Opt (r : regex)                      (* r?   greedy *)
| LazyStar (p : ascii -> bool)         (* c*?  on a class *)
| Plus (p : ascii -> bool).            (* c+   greedy, on a class *)

(** A literal string. *)
Fixpoint lit (l : list ascii) : regex :=
  match l with
  | [] => Eps
  | c :: l' => Seq (Chr c) (lit l')
  end.

Definition cont := list ascii -> option (list ascii).

(** [c*?] followed by [k]: try [k] first, consume one more character of the
    class only when [k] fails. *)
Fixpoint lazy_star (p : ascii -> bool) (k : cont) (s : list ascii)
  : option (list ascii) :=
  match k s with
  | Some rest => Some rest
  | None =>
      match s with
      | c :: s' => if p c then lazy_star p k s' else None
      | [] => None
      end
  end.

(** [c+] followed by [k]: consume as many characters of the class as
    possible, give them back one at a time while [k] fails. *)
Fixpoint greedy_plus (p : ascii -> bool) (k : cont) (s : list ascii)
  : option (list ascii) :=
  match s with
  | c :: s' =>
      if p c then
        match greedy_plus p k s' with
        | Some rest => Some rest
        | None => k s'
        end
      else None
  | [] => None
  end.

(** Backtracking matcher: [bt r s k] matches [r] at the start of [s] and
    hands the rest of the input to [k]; the first success in priority order
    wins. *)
Fixpoint bt (r : regex) (s : list ascii) (k : cont) : option (list ascii) :=
  match r with
  | Eps => k s
  | Chr c =>
      match s with
      | c' :: s' => if Ascii.eqb c c' then k s' else None
      | [] => None
      end
  | Class p =>
      match s with
      | c' :: s' => if p c' then k s' else None
      | [] => None
      end
  | Seq r1 r2 => bt r1 s (fun s' => bt r2 s' k)
  | Alt r1 r2 =>
      match bt r1 s k with
      | Some rest => Some rest
      | None => bt r2 s k
      end
  | Opt r1 =>
      match bt r1 s k with
      | Some rest => Some rest
      | None => k s
      end
  | LazyStar p => lazy_star p k s
  | Plus p => greedy_plus p k s
  end.

(** Length of the match of [r] anchored at the start of [s], if any. *)
Definition re_match (r : regex) (s : list ascii) : option nat :=
  match bt r s (fun rest => Some rest) with
  | Some rest => Some (length s - length rest)
  | None => None
  end.

(** The scan of [re.sub]: [skip] counts the characters of the current match
    that are still to be dropped.  At each position the pattern is tried;
    a non-empty match is replaced by [repl] and the scan resumes after it,
    an empty match inserts [repl] and the scan moves on by one character. *)
Fixpoint sub_from (r : regex) (repl : list ascii) (skip : nat)
  (s : list ascii) : list ascii :=
  match s with
  | [] =>
      match re_match r [] with
      | Some _ => repl
      | None => []
      end
  | c :: s' =>
      match skip with
      | S k => sub_from r repl k s'
      | O =>
          match re_match r s with
          | Some (S n) => repl ++ sub_from r repl n s'
          | Some O => repl ++ c :: sub_from r repl 0 s'
          | None => c :: sub_from r repl 0 s'
          end
      end
  end.

(** [re.sub(r, repl, s)] *)
Definition sub (r : regex) (repl s : list ascii) : list ascii :=
  sub_from r repl 0 s.

End Re.

(* ===================================================================== *)
(** * app/utils/preprocessing.py *)
(* ===================================================================== *)

Import Py Re.

(** [.] : any character except a newline. *)
Definition dot (c : ascii) : bool := negb (code c =? 10)%N.

(** [\S] *)
Definition nonspace (c : ascii) : bool := negb (isspace c).

(** [\w] : alphanumeric or underscore. *)
Definition is_word (c : ascii) : bool := isalnum c || (code c =? 95)%N.

(** The characters kept by step 4, i.e. the complement of [[^\w\s.,!?]]. *)
Definition kept (c : ascii) : bool :=
  is_word c || isspace c
  || (code c =? 46)%N || (code c =? 44)%N
  || (code c =? 33)%N || (code c =? 63)%N.

(** [r'<.*?>'] *)
Definition HTML_TAG : regex := Seq (Chr "<") (Seq (LazyStar dot) (Chr ">")).

(** [r'https?://\S+|www\.\S+'] *)
Definition URL : regex :=
  Alt (Seq (lit (str "http"))
         (Seq (Opt (Chr "s")) (Seq (lit (str "://")) (Plus nonspace))))
      (Seq (lit (str "www.")) (Plus nonspace)).

(** [r'[^\w\s.,!?]'] *)
Definition SPECIAL : regex := Class (fun c => negb (kept c)).

(** [r'\s+'] *)
Definition SPACES : regex := Plus isspace.

Definition preprocess_text (text : list ascii) : list ascii :=
  (* Convert to lowercase *)
  let text := lower text in
  (* Remove HTML tags if present *)
  let text := sub HTML_TAG [] text in
  (* Remove URLs *)
  let text := sub URL [] text in
  (* Remove special characters but keep punctuation *)
  let text := sub SPECIAL [] text in
  (* Remove extra whitespace *)
  let text := strip (sub SPACES (str " ") text) in
  text.

Definition clean_review_batch (reviews : list (list ascii))
  : list (list ascii) :=
  map preprocess_text reviews.

(* ===================================================================== *)
(** * Exceptions and the log of calls *)
(* ===================================================================== *)

(** What a handler can raise: FastAPI's [HTTPException], or any other
    [Exception], kept as its [str(e)]. *)
Inductive exn : Type :=
| HTTPException (status_code : Z) (detail : list ascii)
| Exception (message : list ascii).

(** The calls that leave the request handlers. *)
Inductive event : Type :=
| AnalyzeCall (text : list ascii)      (* sentiment_analyzer.analyze(text) *)
| PipelineCall (text : list ascii).    (* self.sentiment_pipeline(text)    *)

(** A computation that returns or raises, and logs the calls it made. *)
Definition M (A : Type) : Type := (exn + A) * list event.

Definition ret {A} (a : A) : M A := (inr a, []).

Definition raise {A} (e : exn) : M A := (inl e, []).

Definition bind {A B} (m : M A) (f : A -> M B) : M B :=
  match m with
  | (inl e, w) => (inl e, w)
  | (inr a, w) => let (r, w') := f a in (r, w ++ w')
  end.

Definition emit (ev : event) : M unit := (inr tt, [ev]).

(** [try: m  except ... as e: h e] *)
Definition try_except {A} (m : M A) (h : exn -> M A) : M A :=
  match m with
  | (inl e, w) => let (r, w') := h e in (r, w ++ w')
  | (inr a, w) => (inr a, w)
  end.

Notation "x <- m ;; k" := (bind m (fun x => k))
  (at level 61, m at next level, right associativity).
Notation "m ;;; k" := (bind m (fun _ => k))
  (at level 61, right associativity).

(** Outcome and log of a computation. *)
Definition outcome {A} (m : M A) : exn + A := fst m.
Definition calls {A} (m : M A) : list event := snd m.

(** [a == b] on [str] *)
Definition str_eqb (a b : list ascii) : bool :=
  if list_eq_dec ascii_dec a b then true else false.

(** A Python [dict] literal with [str] keys, in insertion order. *)
Definition dict (V : Type) : Type := list (list ascii * V).

Fixpoint dict_get {V} (d : dict V) (key : list ascii) : option V :=
  match d with
  | [] => None
  | (k, v) :: d' => if str_eqb k key then Some v else dict_get d' key
  end.

(* ===================================================================== *)
(** * app/models/sentiment.py *)
(* ===================================================================== *)

(** One element of the list returned by the transformers pipeline. *)
Record RawResult : Type := { label : list ascii; score : Q }.

(** The dictionary returned by [SentimentAnalyzer.analyze]. *)
Record AnalysisResults : Type := {
  res_sentiment : list ascii;
  res_confidence : Q;
  res_normalized_score : Q;
  res_detailed_scores : dict Q
}.

(** The model behind [self.sentiment_pipeline]: on a text it returns a
    result or raises an exception with the given message. *)
Definition pipeline_t : Type := list ascii -> list ascii + RawResult.

Definition call_pipeline (sentiment_pipeline : pipeline_t)
  (text : list ascii) : M RawResult :=
  emit (PipelineCall text) ;;;
  match sentiment_pipeline text with
  | inl message => raise (Exception message)
  | inr result => ret result
  end.

Definition analyze (sentiment_pipeline : pipeline_t) (text : list ascii)
  : M AnalysisResults :=
  emit (AnalyzeCall text) ;;;
  (* Handle long texts: truncate to approximately 250 words *)
  let words := split text in
  let text :=
    if 250 <? length words then join (str " ") (firstn 250 words) else text in
  (* Get raw sentiment analysis results *)
  result <- call_pipeline sentiment_pipeline text ;;
  (* Extract label and score *)
  let label := label result in
  let score := score result in
  (* Convert to positive/negative format *)
  let sentiment :=
    if str_eqb label (str "POSITIVE") then str "positive" else str "negative" in
  (* Create normalized score between -1 and 1 *)
  let normalized_score :=
    if str_eqb sentiment (str "positive") then score else (- score)%Q in
  ret {| res_sentiment := sentiment;
         res_confidence := score;
         res_normalized_score := normalized_score;
         res_detailed_scores :=
           [ (str "POSITIVE",
              if str_eqb sentiment (str "positive") then score
              else (1 - score)%Q);
             (str "NEGATIVE",
              if str_eqb sentiment (str "negative") then score
              else (1 - score)%Q) ] |}.

(* ===================================================================== *)
(** * app/api/endpoints.py *)
(* ===================================================================== *)

Record ReviewRequest : Type := {
  text : list ascii;
  review_id : option (list ascii);
  source : option (list ascii);
  truncate : bool
}.

Record SentimentResponse : Type := {
  sentiment : list ascii;
  confidence : Q;
  normalized_score : Q;
  detailed_scores : dict Q;
  resp_review_id : option (list ascii);
  resp_source : option (list ascii);
  truncated : bool
}.

Record BatchReviewRequest : Type := {
  reviews : list ReviewRequest;
  batch_truncate : bool
}.

Record BatchSentimentResponse : Type := {
  results : list SentimentResponse
}.

(** The fields of a review as they arrive in the request body: [review_id],
    [source] and [truncate] may be absent. *)
Record ReviewBody : Type := {
  body_text : list ascii;
  body_review_id : option (list ascii);
  body_source : option (list ascii);
  body_truncate : option bool
}.

(** Validation of a [ReviewRequest]: [text] has [min_length=1], an absent
    [truncate] takes the default [True].  [None] is the 422 response. *)
Definition parse_ReviewRequest (b : ReviewBody) : option ReviewRequest :=
  if 1 <=? length (body_text b) then
    Some {| text := body_text b;
            review_id := body_review_id b;
            source := body_source b;
            truncate := match body_truncate b with
                        | Some t => t
                        | None => true
                        end |}
  else None.

(** The fields of a batch as they arrive in the request body. *)
Record BatchBody : Type := {
  body_reviews : list ReviewBody;
  body_batch_truncate : option bool
}.

Fixpoint parse_reviews (bs : list ReviewBody) : option (list ReviewRequest) :=
  match bs with
  | [] => Some []
  | b :: bs' =>
      match parse_ReviewRequest b, parse_reviews bs' with
      | Some review, Some reviews => Some (review :: reviews)
      | _, _ => None
      end
  end.

(** Validation of a [BatchReviewRequest]: [reviews] has [min_length=1] and
    [max_length=100], an absent [truncate] takes the default [True]. *)
Definition parse_BatchReviewRequest (b : BatchBody)
  : option BatchReviewRequest :=
  if (1 <=? length (body_reviews b)) && (length (body_reviews b) <=? 100)
  then
    match parse_reviews (body_reviews b) with
    | Some reviews =>
        Some {| reviews := reviews;
                batch_truncate := match body_batch_truncate b with
                                  | Some t => t
                                  | None => true
                                  end |}
    | None => None
    end
  else None.

(** [hasattr(review, 'truncate')]: [truncate] is a declared field of the
    model, so every instance has the attribute. *)
Definition hasattr_truncate (review : ReviewRequest) : bool := true.

(** [review.truncate = value] *)
Definition set_truncate (review : ReviewRequest) (value : bool)
  : ReviewRequest :=
  {| text := text review;
     review_id := review_id review;
     source := source review;
     truncate := value |}.

(** [f"{x}"] for an [Optional[str]] *)
Definition format_optional (x : option (list ascii)) : list ascii :=
  match x with
  | Some s => s
  | None => str "None"
  end.

(** The [SentimentResponse] built from the unpacked [analysis_results] and
    the keyword arguments [review_id], [source] and [truncated]. *)
Definition make_response (analysis_results : AnalysisResults)
  (rid src : option (list ascii)) (trunc : bool) : SentimentResponse :=
  {| sentiment := res_sentiment analysis_results;
     confidence := res_confidence analysis_results;
     normalized_score := res_normalized_score analysis_results;
     detailed_scores := res_detailed_scores analysis_results;
     resp_review_id := rid;
     resp_source := src;
     truncated := trunc |}.

Definition SINGLE_LIMIT_DETAIL : list ascii :=
  str "Text exceeds model's token limit (>250 words / ~512 tokens) and truncation is disabled".

Definition batch_limit_detail (rid : option (list ascii)) : list ascii :=
  str "Review " ++ format_optional rid
  ++ str " exceeds model's token limit (>250 words / ~512 tokens) and truncation is disabled".

Definition RECHECK_DETAIL : list ascii :=
  str "Text is too long after preprocessing and truncation is disabled".

(** [except HTTPException: raise] then
    [except Exception as e: raise HTTPException(500, prefix + str(e))] *)
Definition reraise {A} (prefix : list ascii) (e : exn) : M A :=
  match e with
  | HTTPException _ _ => raise e
  | Exception message => raise (HTTPException 500 (prefix ++ message))
  end.

Section Endpoints.

Variable sentiment_pipeline : pipeline_t.

Definition analyze_sentiment (review : ReviewRequest) : M SentimentResponse :=
  try_except
    ((* Check if text might exceed token limit (rough estimation) *)
     let words := split (text review) in
     let was_truncated := 250 <? length words in
     (* If text is too long and truncation is disabled, return error *)
     if was_truncated && negb (truncate review) then
       raise (HTTPException 400 SINGLE_LIMIT_DETAIL)
     else
       (* Preprocess the text *)
       let processed_text := preprocess_text (text review) in
       (* Truncate if necessary and enabled *)
       let processed_text :=
         if was_truncated && truncate review
         then join (str " ") (firstn 500 (split processed_text))
         else processed_text in
       (* Analyze sentiment *)
       analysis_results <- analyze sentiment_pipeline processed_text ;;
       (* Create response *)
       ret (make_response analysis_results (review_id review) (source review)
              (was_truncated && truncate review)))
    (reraise (str "Error analyzing sentiment: ")).

(** The body of [for review in request.reviews], followed by the rest of the
    loop; [results] is the list built so far. *)
Fixpoint batch_loop (request_truncate : bool) (todo : list ReviewRequest)
  (results : list SentimentResponse) : M (list SentimentResponse) :=
  match todo with
  | [] => ret results
  | review :: todo' =>
      (* Use global truncate setting if not specified in individual review *)
      let review :=
        if negb (hasattr_truncate review)
        then set_truncate review request_truncate
        else review in
      let words := split (text review) in
      let was_truncated := 250 <? length words in
      (* If text is too long and truncation is disabled, return error *)
      if was_truncated && negb (truncate review) then
        raise (HTTPException 400 (batch_limit_detail (review_id review)))
      else
        (* Preprocess the text first *)
        let processed_text := preprocess_text (text review) in
        (* Truncate if necessary and enabled *)
        let processed_text :=
          if was_truncated && truncate review
          then join (str " ") (firstn 250 (split processed_text))
          else processed_text in
        (* Check if still too long after preprocessing (safety check) *)
        if (250 <? length (split processed_text)) && negb (truncate review)
        then raise (HTTPException 400 RECHECK_DETAIL)
        else
          (* Analyze sentiment *)
          analysis_results <- analyze sentiment_pipeline processed_text ;;
          (* Create response item *)
          let results :=
            results ++ [make_response analysis_results (review_id review)
                          (source review) (was_truncated && truncate review)] in
          batch_loop request_truncate todo' results
  end.

Definition analyze_batch (request : BatchReviewRequest)
  : M BatchSentimentResponse :=
  try_except
    (results <- batch_loop (batch_truncate request) (reviews request) [] ;;
     ret {| results := results |})
    (reraise (str "Error analyzing batch sentiment: ")).

(** [POST /analyze/batch] on a request body; [None] is the 422 response of
    the validation. *)
Definition post_analyze_batch (b : BatchBody)
  : option (M BatchSentimentResponse) :=
  match parse_BatchReviewRequest b with
  | Some request => Some (analyze_batch request)
  | None => None
  end.

End Endpoints.

(* ===================================================================== *)
(** * Notions used in the statements and proofs *)
(* ===================================================================== *)

(** ** Subsequences *)

(** [subseq t s]: [t] is [s] with some characters deleted. *)
Inductive subseq {A : Type} : list A -> list A -> Prop :=
| subseq_nil : subseq [] []
| subseq_keep x t s : subseq t s -> subseq (x :: t) (x :: s)
| subseq_drop x t s : subseq t s -> subseq t (x :: s).

(** ** Words *)

(** Number of positions of [s] at which a word begins, [inword] telling
    whether the character before [s] belongs to a word. *)
Fixpoint word_starts (inword : bool) (s : list ascii) : nat :=
  match s with
  | [] => 0
  | c :: r =>
      if isspace c then word_starts false r
      else (if inword then 0 else 1) + word_starts true r
  end.

(** A word as [split] produces them: not empty, without whitespace. *)
Definition is_word_token (w : list ascii) : Prop :=
  w <> [] /\ Forall (fun c => isspace c = false) w.

(** ** The language of a pattern *)

Inductive matches : regex -> list ascii -> Prop :=
| m_eps : matches Eps []
| m_chr c : matches (Chr c) [c]
| m_class (p : ascii -> bool) c : p c = true -> matches (Class p) [c]
| m_seq r1 r2 w1 w2 :
    matches r1 w1 -> matches r2 w2 -> matches (Seq r1 r2) (w1 ++ w2)
| m_alt_l r1 r2 w : matches r1 w -> matches (Alt r1 r2) w
| m_alt_r r1 r2 w : matches r2 w -> matches (Alt r1 r2) w
| m_opt_none r : matches (Opt r) []
| m_opt_some r w : matches r w -> matches (Opt r) w
| m_lazy (p : ascii -> bool) w :
    Forall (fun c => p c = true) w -> matches (LazyStar p) w
| m_plus (p : ascii -> bool) w :
    w <> [] -> Forall (fun c => p c = true) w -> matches (Plus p) w.

(** What the matcher accepts is a word of the language followed by an input
    that the continuation accepts. *)
Definition sound_on (r : regex) : Prop :=
  forall (s : list ascii) (k : cont) (rest : list ascii),
    bt r s k = Some rest ->
    exists w s', s = w ++ s' /\ matches r w /\ k s' = Some rest.

(** ** Runs of characters *)

Fixpoint drop_while (p : ascii -> bool) (s : list ascii) : list ascii :=
  match s with
  | [] => []
  | c :: r => if p c then drop_while p r else s
  end.

Fixpoint span (p : ascii -> bool) (s : list ascii) : nat :=
  match s with
  | [] => 0
  | c :: r => if p c then S (span p r) else 0
  end.

Definition starts_space (s : list ascii) : bool :=
  match s with
  | c :: _ => isspace c
  | [] => false
  end.

(** ** Normal forms *)

(** Step 5 before [strip]: [re.sub(r'\s+', ' ', text)] *)
Definition collapse (s : list ascii) : list ascii := sub SPACES (str " ") s.

(** A string is tidy when its only whitespace is single spaces. *)
Fixpoint tidy (s : list ascii) : bool :=
  match s with
  | [] => true
  | c :: r =>
      (negb (isspace c) || (Ascii.eqb c " " && negb (starts_space r)))
      && tidy r
  end.

(** The text after each step of [preprocess_text]. *)
Definition step1 (x : list ascii) := lower x.
Definition step2 (x : list ascii) := sub HTML_TAG [] (step1 x).
Definition step3 (x : list ascii) := sub URL [] (step2 x).
Definition step4 (x : list ascii) := sub SPECIAL [] (step3 x).

(** Does the string begin with [www.] followed by a character that is not
    whitespace? *)
Definition starts_www_url (s : list ascii) : bool :=
  match s with
  | c1 :: c2 :: c3 :: c4 :: c5 :: _ =>
      Ascii.eqb c1 "w" && Ascii.eqb c2 "w" && Ascii.eqb c3 "w"
      && Ascii.eqb c4 "." && negb (isspace c5)
  | _ => false
  end.

(** Does the string contain [www.] followed by a character that is not
    whitespace? *)
Fixpoint has_www_url (s : list ascii) : bool :=
  match s with
  | [] => false
  | _ :: r => starts_www_url s || has_www_url r
  end.

(** ** Views of the handlers *)

(** [" ".join(text.split()[:n])] *)
Definition first_words (n : nat) (t : list ascii) : list ascii :=
  join (str " ") (firstn n (split t)).

(** [len(review.text.split()) > 250], measured on the text as received. *)
Definition too_long (review : ReviewRequest) : bool :=
  250 <? word_count (text review).

(** The first length check of both handlers. *)
Definition rejected (review : ReviewRequest) : bool :=
  too_long review && negb (truncate review).

(** The [processed_text] that a handler passes to [analyze], [limit] being
    500 on the single-item path and 250 on the batch path. *)
Definition submitted (limit : nat) (review : ReviewRequest) : list ascii :=
  if too_long review && truncate review
  then first_words limit (preprocess_text (text review))
  else preprocess_text (text review).

(** The text that [analyze] passes to the model. *)
Definition model_input (t : list ascii) : list ascii :=
  if 250 <? word_count t then first_words 250 t else t.

(** The dictionary that [analyze] builds from the model's result. *)
Definition results_of (result : RawResult) : AnalysisResults :=
  let sentiment :=
    if str_eqb (label result) (str "POSITIVE")
    then str "positive" else str "negative" in
  {| res_sentiment := sentiment;
     res_confidence := score result;
     res_normalized_score :=
       if str_eqb sentiment (str "positive")
       then score result else (- score result)%Q;
     res_detailed_scores :=
       [ (str "POSITIVE",
          if str_eqb sentiment (str "positive") then score result
          else (1 - score result)%Q);
         (str "NEGATIVE",
          if str_eqb sentiment (str "negative") then score result
          else (1 - score result)%Q) ] |}.

(** The calls made for one review that passes the length check. *)
Definition item_calls (limit : nat) (review : ReviewRequest) : list event :=
  [AnalyzeCall (submitted limit review);
   PipelineCall (model_input (submitted limit review))].

(** A logged call respects the model's budget of 250 words. *)
Definition within_budget (e : event) : Prop :=
  match e with
  | PipelineCall t => word_count t <= 250
  | AnalyzeCall _ => True
  end.

(** Stand-ins for the model, used to run the handlers on examples. *)
Definition model_says (l : string) (s : Q) : pipeline_t :=
  fun _ => inr {| label := str l; score := s |}.

Definition model_fails : pipeline_t :=
  fun _ => inl (str "CUDA out of memory").

(** A text of [n] copies of [word], each followed by a space. *)
Definition repeat_word (word : string) (n : nat) : list ascii :=
  concat (repeat (str word ++ str " ") n).

(** What one response of a batch tells about its review. *)
Definition answers (p : pipeline_t) (review : ReviewRequest)
  (r : SentimentResponse) : Prop :=
  rejected review = false
  /\ (exists result, p (model_input (submitted 250 review)) = inr result
                     /\ r = make_response (results_of result)
                              (review_id review) (source review)
                              (too_long review && truncate review)).

(** ** Requests used in the examples *)

Definition long_text : list ascii := repeat_word "great" 251.

Definition long_review (t : bool) : ReviewRequest :=
  {| text := long_text; review_id := Some (str "long1"); source := None;
     truncate := t |}.

Definition short_review : ReviewRequest :=
  {| text := str "Great product, very satisfied!";
     review_id := Some (str "batch1"); source := None; truncate := true |}.

(** 250 words followed by a lone [#], which normalisation deletes. *)
Definition hash_review (t : bool) : ReviewRequest :=
  {| text := repeat_word "ok" 250 ++ str "#"; review_id := None;
     source := None; truncate := t |}.

(** A batch of a short review and a long one that may be truncated, sent
    with the global flag off, and what the handler answers. *)
(** The body of [test_batch_with_mixed_truncation]: the third review has no
    [truncate] field and the global flag is off. *)
Definition mixed_body : BatchBody :=
  {| body_reviews :=
       [ {| body_text := str "Great product, very satisfied!";
            body_review_id := Some (str "batch1"); body_source := None;
            body_truncate := Some true |};
         {| body_text := repeat_word "This product is great." 200;
            body_review_id := Some (str "batch2"); body_source := None;
            body_truncate := Some true |};
         {| body_text := str "Disappointed with the quality.";
            body_review_id := Some (str "batch3"); body_source := None;
            body_truncate := None |} ];
     body_batch_truncate := Some false |}.

Definition mixed_batch : BatchReviewRequest :=
  {| reviews := [short_review; long_review true]; batch_truncate := false |}.

(** The response built from a model answer [POSITIVE] with score 0.9. *)
Definition positive_response (rid : option (list ascii)) (trunc : bool)
  : SentimentResponse :=
  make_response (results_of {| label := str "POSITIVE"; score := 9 # 10 |})
    rid None trunc.

Definition mixed_batch_response : BatchSentimentResponse :=
  {| results := [positive_response (Some (str "batch1")) false;
                 positive_response (Some (str "long1")) true] |}.

(** ** Notions used for the further properties *)

(** The texts that reached the model, in the order of the calls. *)
Fixpoint model_texts (events : list event) : list (list ascii) :=
  match events with
  | [] => []
  | PipelineCall t :: events' => t :: model_texts events'
  | AnalyzeCall _ :: events' => model_texts events'
  end.

(** The newline character, the one character that [.] does not match. *)
Definition newline : ascii := ascii_of_N 10.

(** A character that step 4 of [preprocess_text] deletes or that is
    whitespace: nothing of it is left in a word. *)
Definition leaves_nothing (c : ascii) : Prop :=
  isspace c = true \/ kept c = false.

(** What a validated review keeps of its body. *)
Definition parsed_from (b : ReviewBody) (review : ReviewRequest) : Prop :=
  text review = body_text b
  /\ review_id review = body_review_id b
  /\ source review = body_source b
  /\ truncate review = match body_truncate b with
                       | Some t => t
                       | None => true
                       end.

(** What a response keeps of its review. *)
Definition echoes (review : ReviewRequest) (r : SentimentResponse) : Prop :=
  resp_review_id r = review_id review
  /\ resp_source r = source review
  /\ truncated r = (250 <? word_count (text review)) && truncate review.

(** A review of symbols and blanks only. *)
Definition symbols_review : ReviewRequest :=
  {| text := str " #@ ** "; review_id := None; source := None;
     truncate := true |}.

(* ===================================================================== *)
(** * Facts about characters *)
(* ===================================================================== *)

(** Case analysis over the 256 code points. *)
Ltac by_cases_on_char c :=
  destruct c as [[] [] [] [] [] [] [] []]; vm_compute; try reflexivity;
  try discriminate; auto.

Lemma isspace_tolower (c : ascii) : isspace (tolower c) = isspace c.
Proof. by_cases_on_char c. Qed.

Lemma tolower_idem (c : ascii) : tolower (tolower c) = tolower c.
Proof. by_cases_on_char c. Qed.

Lemma isspace_kept (c : ascii) : isspace c = true -> kept c = true.
Proof. unfold kept. intros ->. rewrite orb_true_r. reflexivity. Qed.

Lemma kept_not_lt (c : ascii) : kept c = true -> c <> "<"%char.
Proof. intros H ->. vm_compute in H. discriminate. Qed.

Lemma kept_not_colon (c : ascii) : kept c = true -> c <> ":"%char.
Proof. intros H ->. vm_compute in H. discriminate. Qed.

(* ===================================================================== *)
(** * Subsequences *)
(* ===================================================================== *)

#[local] Hint Constructors subseq : core.

Lemma subseq_refl {A} (s : list A) : subseq s s.
Proof. induction s; auto. Qed.

Lemma subseq_trans {A} (a b c : list A) :
  subseq a b -> subseq b c -> subseq a c.
Proof.
  intros Hab Hbc. revert a Hab.
  induction Hbc; intros a Hab; auto.
  inversion Hab; subst; auto.
Qed.

Lemma subseq_skipn {A} (n : nat) (s : list A) : subseq (skipn n s) s.
Proof.
  revert n. induction s as [|x s IH]; intros [|n]; simpl; auto using subseq_refl.
Qed.

Lemma subseq_In {A} (t s : list A) (x : A) : subseq t s -> In x t -> In x s.
Proof.
  induction 1; simpl; intros Hin; auto.
  destruct Hin; auto.
Qed.

Lemma subseq_Forall {A} (P : A -> Prop) (t s : list A) :
  subseq t s -> Forall P s -> Forall P t.
Proof.
  intros Hsub Hs. rewrite Forall_forall in *. eauto using subseq_In.
Qed.

Lemma subseq_app_l {A} (a b : list A) : subseq b (a ++ b).
Proof. induction a; simpl; auto using subseq_refl. Qed.

Lemma subseq_app_r {A} (a b : list A) : subseq a (a ++ b).
Proof.
  induction a; simpl; auto.
  induction b; auto.
Qed.

Lemma subseq_rev {A} (t s : list A) : subseq t s -> subseq (rev t) (rev s).
Proof.
  induction 1; simpl; auto.
  - clear H. revert IHsubseq. generalize (rev t), (rev s).
    intros a b Hab. induction Hab; simpl; auto.
  - eapply subseq_trans; [exact IHsubseq | apply subseq_app_r].
Qed.

(* ===================================================================== *)
(** * Counting words *)
(* ===================================================================== *)

Module WordCount.

Lemma starts_word_split (r : list ascii) :
  starts_word r = true -> split r <> [].
Proof.
  destruct r as [|c r]; simpl; [discriminate|].
  intros Hc. apply negb_true_iff in Hc. rewrite Hc.
  destruct (starts_word r); [destruct (split r)|]; discriminate.
Qed.

Lemma word_starts_flag (r : list ascii) :
  word_starts false r =
  (if starts_word r then 1 else 0) + word_starts true r.
Proof.
  destruct r as [|c r]; simpl; [reflexivity|].
  destruct (isspace c); reflexivity.
Qed.

Lemma word_count_starts (s : list ascii) :
  word_count s = word_starts false s.
Proof.
  unfold word_count. induction s as [|c r IH]; simpl; [reflexivity|].
  destruct (isspace c); [exact IH|].
  rewrite (word_starts_flag r) in IH.
  destruct (starts_word r) eqn:Hr.
  - pose proof (starts_word_split r Hr) as Hne.
    destruct (split r) as [|w ws]; [contradiction|]. simpl in *. lia.
  - simpl in *. lia.
Qed.

Lemma word_starts_bounds (s : list ascii) :
  word_starts true s <= word_starts false s <= S (word_starts true s).
Proof. rewrite word_starts_flag. destruct (starts_word s); lia. Qed.

(** Deleting characters never creates a word. *)
Lemma word_starts_subseq (t s : list ascii) :
  subseq t s -> forall b, word_starts b t <= word_starts b s.
Proof.
  induction 1 as [|x t s _ IH|x t s _ IH]; intros b; simpl.
  - lia.
  - destruct (isspace x); [apply IH|].
    specialize (IH true). lia.
  - destruct (isspace x).
    + pose proof (word_starts_bounds t). specialize (IH false).
      destruct b; lia.
    + pose proof (word_starts_bounds t). specialize (IH true).
      destruct b; lia.
Qed.

Lemma word_count_subseq (t s : list ascii) :
  subseq t s -> word_count t <= word_count s.
Proof.
  intros H. rewrite !word_count_starts. apply word_starts_subseq, H.
Qed.

(** A character map that preserves whitespace preserves the words. *)
Lemma word_starts_map (f : ascii -> ascii) :
  (forall c, isspace (f c) = isspace c) ->
  forall s b, word_starts b (map f s) = word_starts b s.
Proof.
  intros Hf. induction s as [|c r IH]; intros b; simpl; [reflexivity|].
  rewrite Hf. destruct (isspace c); rewrite IH; reflexivity.
Qed.

Lemma word_count_lower (s : list ascii) : word_count (lower s) = word_count s.
Proof.
  rewrite !word_count_starts. apply word_starts_map, isspace_tolower.
Qed.

Lemma split_tokens (s : list ascii) : Forall is_word_token (split s).
Proof.
  induction s as [|c r IH]; simpl; [constructor|].
  destruct (isspace c) eqn:Hc; [exact IH|].
  destruct (starts_word r).
  - destruct (split r) as [|w ws].
    + repeat constructor; [discriminate | exact Hc].
    + inversion IH as [|? ? [Hne Hw] Hws]; subst.
      constructor; [|exact Hws].
      split; [discriminate | constructor; assumption].
  - constructor; [|exact IH].
    split; [discriminate | repeat constructor; exact Hc].
Qed.

Lemma split_token_app (w rest : list ascii) :
  is_word_token w ->
  split (w ++ " "%char :: rest) = w :: split rest.
Proof.
  intros [Hne Hw]. induction w as [|c w IH]; [contradiction|].
  inversion Hw as [|? ? Hc Hw']; subst. simpl. rewrite Hc.
  destruct w as [|c' w].
  - simpl. reflexivity.
  - inversion Hw' as [|? ? Hc' _]; subst.
    change (starts_word ((c' :: w) ++ " "%char :: rest))
      with (negb (isspace c')).
    rewrite Hc'. simpl negb. cbv iota.
    rewrite IH; [reflexivity | discriminate | assumption].
Qed.

Lemma split_token (w : list ascii) : is_word_token w -> split w = [w].
Proof.
  intros [Hne Hw]. induction w as [|c w IH]; [contradiction|].
  inversion Hw as [|? ? Hc Hw']; subst. simpl. rewrite Hc.
  destruct w as [|c' w]; [reflexivity|].
  inversion Hw' as [|? ? Hc' _]; subst.
  change (starts_word (c' :: w)) with (negb (isspace c')).
  rewrite Hc'. simpl negb. cbv iota.
  rewrite IH; [reflexivity | discriminate | assumption].
Qed.

(** Joining words with one space and splitting again gives the words back. *)
Lemma split_join (ws : list (list ascii)) :
  Forall is_word_token ws -> split (join (str " ") ws) = ws.
Proof.
  induction 1 as [|w ws Hw Hws IH]; [reflexivity|].
  destruct ws as [|w' ws].
  - simpl. apply split_token, Hw.
  - change (join (str " ") (w :: w' :: ws))
      with (w ++ " "%char :: join (str " ") (w' :: ws)).
    rewrite split_token_app by exact Hw. rewrite IH. reflexivity.
Qed.

(** The first [n] words of a text, joined by single spaces, are [min n _]
    words. *)
Lemma word_count_first_words (n : nat) (s : list ascii) :
  word_count (join (str " ") (firstn n (split s))) = min n (word_count s).
Proof.
  unfold word_count. rewrite split_join.
  - apply length_firstn.
  - apply Forall_forall. intros w Hin.
    pose proof (split_tokens s) as Hall. rewrite Forall_forall in Hall.
    apply Hall. eapply subseq_In; [|exact Hin].
    rewrite <- (firstn_skipn n (split s)) at 2. apply subseq_app_r.
Qed.

End WordCount.

(* ===================================================================== *)
(** * Facts about the matcher and about [re.sub] *)
(* ===================================================================== *)

Module ReFacts.

(** ** The scan *)

Lemma sub_from_skipn (r : regex) (repl : list ascii) (k : nat)
  (s : list ascii) :
  sub_from r repl k s = sub r repl (skipn k s).
Proof.
  unfold sub. revert k. induction s as [|c s IH]; intros [|k]; try reflexivity.
  simpl. apply IH.
Qed.

Lemma sub_nil (r : regex) (repl : list ascii) :
  sub r repl [] = match re_match r [] with Some _ => repl | None => [] end.
Proof. reflexivity. Qed.

Lemma sub_cons (r : regex) (repl : list ascii) (c : ascii) (s : list ascii) :
  sub r repl (c :: s) =
  match re_match r (c :: s) with
  | Some (S n) => repl ++ sub r repl (skipn n s)
  | Some O => repl ++ c :: sub r repl s
  | None => c :: sub r repl s
  end.
Proof.
  unfold sub at 1. cbn [sub_from].
  destruct (re_match r (c :: s)) as [[|n]|]; try reflexivity.
  rewrite sub_from_skipn. reflexivity.
Qed.

(** Substituting the empty string only deletes characters. *)
Lemma sub_from_delete_subseq (r : regex) (s : list ascii) :
  forall k, subseq (sub_from r [] k s) s.
Proof.
  induction s as [|c s IH]; intros k; simpl.
  - destruct (re_match r []); constructor.
  - destruct k as [|k]; [|apply subseq_drop, IH].
    destruct (re_match r (c :: s)) as [[|n]|]; simpl;
      auto using subseq_keep, subseq_drop.
Qed.

Lemma sub_delete_subseq (r : regex) (s : list ascii) : subseq (sub r [] s) s.
Proof. apply sub_from_delete_subseq. Qed.

(** A substitution produces characters of the input or of the replacement. *)
Lemma sub_from_In (r : regex) (repl s : list ascii) (x : ascii) :
  forall k, In x (sub_from r repl k s) -> In x s \/ In x repl.
Proof.
  induction s as [|c s IH]; intros k; simpl.
  - destruct (re_match r []); simpl; auto.
  - destruct k as [|k]; [|intros H; destruct (IH _ H); auto].
    destruct (re_match r (c :: s)) as [[|n]|]; simpl;
      rewrite ?in_app_iff; simpl; intros H;
      repeat match goal with
        | H : _ \/ _ |- _ => destruct H
        | H : In x (sub_from _ _ _ _) |- _ => destruct (IH _ H); clear H
        end; auto.
Qed.

(** Where the pattern matches at no position, nothing is substituted. *)
Lemma sub_no_match (r : regex) (repl s : list ascii) :
  (forall pre t, s = pre ++ t -> re_match r t = None) -> sub r repl s = s.
Proof.
  induction s as [|c s IH]; intros Hno.
  - rewrite sub_nil, (Hno [] []); reflexivity.
  - rewrite sub_cons, (Hno [] (c :: s)) by reflexivity.
    f_equal. apply IH. intros pre t ->.
    apply (Hno (c :: pre) t). reflexivity.
Qed.

#[local] Hint Constructors matches : core.

Lemma lazy_star_sound (p : ascii -> bool) : sound_on (LazyStar p).
Proof.
  intros s k rest. simpl. induction s as [|c s IH]; simpl.
  - destruct (k []) eqn:Hk; [|discriminate].
    intros [= <-]. exists [], []. auto.
  - destruct (k (c :: s)) eqn:Hk.
    + intros [= <-]. exists [], (c :: s). auto.
    + destruct (p c) eqn:Hp; [|discriminate].
      intros H. destruct (IH H) as (w & s' & -> & Hm & Hk').
      exists (c :: w), s'. repeat split; auto.
      inversion Hm; subst. auto.
Qed.

Lemma greedy_plus_sound (p : ascii -> bool) : sound_on (Plus p).
Proof.
  intros s k rest. simpl. induction s as [|c s IH]; simpl; [discriminate|].
  destruct (p c) eqn:Hp; [|discriminate].
  destruct (greedy_plus p k s) eqn:Hg.
  - intros [= <-]. destruct (IH eq_refl) as (w & s' & -> & Hm & Hk').
    exists (c :: w), s'. repeat split; auto.
    inversion Hm; subst. constructor; [discriminate | auto].
  - intros Hk. exists [c], s. repeat split; auto.
    constructor; [discriminate | auto].
Qed.

Lemma bt_sound (r : regex) : sound_on r.
Proof.
  induction r as [|c|p|r1 IH1 r2 IH2|r1 IH1 r2 IH2|r1 IH1|p|p];
    try apply lazy_star_sound; try apply greedy_plus_sound;
    intros s k rest; simpl.
  - intros Hk. exists [], s. auto.
  - destruct s as [|c' s]; [discriminate|].
    destruct (Ascii.eqb_spec c c') as [<-|]; [|discriminate].
    intros Hk. exists [c], s. auto.
  - destruct s as [|c' s]; [discriminate|].
    destruct (p c') eqn:Hp; [|discriminate].
    intros Hk. exists [c'], s. auto.
  - intros H. destruct (IH1 _ _ _ H) as (w1 & s1 & -> & Hm1 & H2).
    destruct (IH2 _ _ _ H2) as (w2 & s2 & -> & Hm2 & Hk).
    exists (w1 ++ w2), s2. rewrite <- app_assoc. auto.
  - destruct (bt r1 s k) eqn:H1.
    + intros [= <-]. destruct (IH1 _ _ _ H1) as (w & s' & -> & Hm & Hk).
      exists w, s'. auto.
    + intros H2. destruct (IH2 _ _ _ H2) as (w & s' & -> & Hm & Hk).
      exists w, s'. auto.
  - destruct (bt r1 s k) eqn:H1.
    + intros [= <-]. destruct (IH1 _ _ _ H1) as (w & s' & -> & Hm & Hk).
      exists w, s'. auto.
    + intros Hk. exists [], s. auto.
Qed.

(** An anchored match of length [n] is a word of the language written on the
    first [n] characters. *)
Lemma re_match_sound (r : regex) (s : list ascii) (n : nat) :
  re_match r s = Some n ->
  exists w s', s = w ++ s' /\ matches r w /\ n = length w.
Proof.
  unfold re_match. destruct (bt r s _) as [rest|] eqn:H; [|discriminate].
  intros [= <-]. destruct (bt_sound r _ _ _ H) as (w & s' & -> & Hm & [= ->]).
  exists w, rest. repeat split; auto.
  rewrite length_app. lia.
Qed.

(** ** One character of a class *)

Lemma re_match_class (p : ascii -> bool) (c : ascii) (s : list ascii) :
  re_match (Class p) (c :: s) = if p c then Some 1 else None.
Proof.
  unfold re_match. cbn [bt]. destruct (p c); [|reflexivity].
  f_equal. cbn [length]. lia.
Qed.

(** Deleting the characters of a class is a filter. *)
Lemma sub_class_delete (p : ascii -> bool) (s : list ascii) :
  sub (Class p) [] s = filter (fun c => negb (p c)) s.
Proof.
  induction s as [|c s IH]; [reflexivity|].
  rewrite sub_cons, re_match_class. simpl.
  destruct (p c); simpl; rewrite IH; reflexivity.
Qed.

(** ** A greedy run *)

Lemma skipn_span (p : ascii -> bool) (s : list ascii) :
  skipn (span p s) s = drop_while p s.
Proof.
  induction s as [|c r IH]; simpl; [reflexivity|].
  destruct (p c); simpl; auto.
Qed.

Lemma length_drop_while (p : ascii -> bool) (s : list ascii) :
  length (drop_while p s) + span p s = length s.
Proof.
  induction s as [|c r IH]; simpl; [reflexivity|].
  destruct (p c); simpl; lia.
Qed.

Lemma greedy_plus_accept (p : ascii -> bool) (c : ascii) (s : list ascii) :
  greedy_plus p (fun rest => Some rest) (c :: s) =
  if p c then Some (drop_while p s) else None.
Proof.
  revert c. induction s as [|c' s IH]; intros c; simpl.
  - destruct (p c); reflexivity.
  - specialize (IH c'). simpl in IH. destruct (p c); [|reflexivity].
    destruct (p c'); [|reflexivity].
    rewrite IH. reflexivity.
Qed.

Lemma re_match_plus (p : ascii -> bool) (c : ascii) (s : list ascii) :
  re_match (Plus p) (c :: s) = if p c then Some (S (span p s)) else None.
Proof.
  unfold re_match. cbn [bt]. rewrite greedy_plus_accept.
  destruct (p c); [|reflexivity].
  f_equal. pose proof (length_drop_while p s). cbn [length]. lia.
Qed.

(** [re.sub(r'c+', repl, s)] replaces each maximal run by [repl]. *)
Lemma sub_plus_cons (p : ascii -> bool) (repl : list ascii) (c : ascii)
  (s : list ascii) :
  sub (Plus p) repl (c :: s) =
  if p c then repl ++ sub (Plus p) repl (drop_while p s)
  else c :: sub (Plus p) repl s.
Proof.
  rewrite sub_cons, re_match_plus.
  destruct (p c); [|reflexivity].
  rewrite skipn_span. reflexivity.
Qed.

End ReFacts.

(* ===================================================================== *)
(** * Facts about [preprocess_text] *)
(* ===================================================================== *)

Module PreprocessFacts.

Import WordCount ReFacts.

(** Induction on the length of a string. *)
Lemma length_induction (P : list ascii -> Prop) :
  (forall s, (forall t, length t < length s -> P t) -> P s) ->
  forall s, P s.
Proof.
  intros Hstep s.
  assert (H : forall n t, length t < n -> P t).
  { induction n as [|n IH]; intros t Hlt; [lia|].
    apply Hstep. intros u Hu. apply IH. lia. }
  apply (H (S (length s))). lia.
Qed.

(** ** [strip] *)

Lemma lstrip_app (s : list ascii) :
  exists t, s = t ++ lstrip s /\ Forall (fun c => isspace c = true) t.
Proof.
  induction s as [|c r (t & Ht & Hall)]; simpl.
  - exists []. auto.
  - destruct (isspace c) eqn:Hc.
    + exists (c :: t). simpl. split; [f_equal; exact Ht | auto].
    + exists []. auto.
Qed.

Lemma rstrip_app (s : list ascii) : exists t, s = rstrip s ++ t.
Proof.
  unfold rstrip. destruct (lstrip_app (rev s)) as (t & Ht & _).
  exists (rev t). rewrite <- rev_app_distr, <- Ht, rev_involutive.
  reflexivity.
Qed.

Lemma subseq_lstrip (s : list ascii) : subseq (lstrip s) s.
Proof.
  destruct (lstrip_app s) as (t & Ht & _).
  rewrite Ht at 2. apply subseq_app_l.
Qed.

Lemma subseq_rstrip (s : list ascii) : subseq (rstrip s) s.
Proof.
  destruct (rstrip_app s) as (t & Ht).
  rewrite Ht at 2. apply subseq_app_r.
Qed.

Lemma subseq_strip (s : list ascii) : subseq (strip s) s.
Proof.
  unfold strip.
  eapply subseq_trans; [apply subseq_rstrip | apply subseq_lstrip].
Qed.

Lemma lstrip_starts (s : list ascii) : starts_space (lstrip s) = false.
Proof.
  induction s as [|c r IH]; simpl; [reflexivity|].
  destruct (isspace c) eqn:Hc; [exact IH | exact Hc].
Qed.

Lemma lstrip_fixed (s : list ascii) : starts_space s = false -> lstrip s = s.
Proof. destruct s as [|c r]; simpl; [reflexivity | intros ->; reflexivity]. Qed.

Lemma lstrip_idem (s : list ascii) : lstrip (lstrip s) = lstrip s.
Proof. apply lstrip_fixed, lstrip_starts. Qed.

Lemma rstrip_idem (s : list ascii) : rstrip (rstrip s) = rstrip s.
Proof. unfold rstrip. rewrite rev_involutive, lstrip_idem. reflexivity. Qed.

Lemma starts_space_prefix (a b : list ascii) :
  starts_space (a ++ b) = false -> starts_space a = false.
Proof. destruct a; simpl; auto. Qed.

Lemma strip_idem (s : list ascii) : strip (strip s) = strip s.
Proof.
  unfold strip. rewrite (lstrip_fixed (rstrip (lstrip s))).
  - apply rstrip_idem.
  - destruct (rstrip_app (lstrip s)) as (t & Ht).
    apply (starts_space_prefix _ t). rewrite <- Ht. apply lstrip_starts.
Qed.

(** ** Collapsing whitespace *)

Lemma collapse_nil : collapse [] = [].
Proof. reflexivity. Qed.

Lemma collapse_cons (c : ascii) (s : list ascii) :
  collapse (c :: s) =
  if isspace c then " "%char :: collapse (drop_while isspace s)
  else c :: collapse s.
Proof. unfold collapse, SPACES. rewrite sub_plus_cons. reflexivity. Qed.

Lemma drop_while_shorter (p : ascii -> bool) (s : list ascii) :
  length (drop_while p s) <= length s.
Proof. pose proof (length_drop_while p s). lia. Qed.

Lemma drop_while_starts (s : list ascii) :
  starts_space (drop_while isspace s) = false.
Proof.
  induction s as [|c r IH]; simpl; [reflexivity|].
  destruct (isspace c) eqn:Hc; [exact IH | exact Hc].
Qed.

Lemma drop_while_fixed (s : list ascii) :
  starts_space s = false -> drop_while isspace s = s.
Proof. destruct s as [|c r]; simpl; [reflexivity | intros ->; reflexivity]. Qed.

Lemma word_starts_drop_while (s : list ascii) :
  word_starts false (drop_while isspace s) = word_starts false s.
Proof.
  induction s as [|c r IH]; simpl; [reflexivity|].
  destruct (isspace c) eqn:Hc; [exact IH|].
  simpl. rewrite Hc. reflexivity.
Qed.

(** Collapsing runs of whitespace keeps the words. *)
Lemma word_starts_collapse (s : list ascii) :
  forall b, word_starts b (collapse s) = word_starts b s.
Proof.
  induction s as [s IH] using length_induction. intros b.
  destruct s as [|c r]; [reflexivity|].
  rewrite collapse_cons. simpl.
  destruct (isspace c) eqn:Hc.
  - change (word_starts b (" "%char :: collapse (drop_while isspace r)))
      with (word_starts false (collapse (drop_while isspace r))).
    rewrite IH, word_starts_drop_while; [reflexivity|].
    pose proof (drop_while_shorter isspace r). simpl. lia.
  - simpl. rewrite Hc. rewrite IH; [reflexivity | simpl; lia].
Qed.

Lemma collapse_In (s : list ascii) (x : ascii) :
  In x (collapse s) -> In x s \/ x = " "%char.
Proof.
  intros H. destruct (sub_from_In _ _ _ _ _ H) as [|[<-|[]]]; auto.
Qed.

Lemma starts_space_collapse (s : list ascii) :
  starts_space (collapse s) = starts_space s.
Proof.
  destruct s as [|c r]; [reflexivity|].
  rewrite collapse_cons. simpl. destruct (isspace c) eqn:Hc; simpl; auto.
Qed.

Lemma tidy_collapse (s : list ascii) : tidy (collapse s) = true.
Proof.
  induction s as [s IH] using length_induction.
  destruct s as [|c r]; [reflexivity|].
  rewrite collapse_cons. destruct (isspace c) eqn:Hc; simpl.
  - rewrite starts_space_collapse, drop_while_starts. simpl.
    apply IH. pose proof (drop_while_shorter isspace r). simpl. lia.
  - rewrite Hc. simpl. apply IH. simpl. lia.
Qed.

Lemma collapse_tidy (s : list ascii) : tidy s = true -> collapse s = s.
Proof.
  induction s as [|c r IH]; [reflexivity|].
  simpl. intros H. apply andb_true_iff in H as [Hc Hr].
  rewrite collapse_cons. destruct (isspace c) eqn:Hsp; simpl in Hc.
  - apply andb_true_iff in Hc as [Heq Hst].
    apply Ascii.eqb_eq in Heq. apply negb_true_iff in Hst. subst c.
    rewrite drop_while_fixed by exact Hst. rewrite IH by exact Hr.
    reflexivity.
  - rewrite IH by exact Hr. reflexivity.
Qed.

Lemma tidy_suffix (a b : list ascii) : tidy (a ++ b) = true -> tidy b = true.
Proof.
  induction a as [|c a IH]; simpl; [auto|].
  intros H. apply andb_true_iff in H as [_ H]. auto.
Qed.

Lemma tidy_prefix (a b : list ascii) : tidy (a ++ b) = true -> tidy a = true.
Proof.
  induction a as [|c a IH]; simpl; [auto|].
  intros H. apply andb_true_iff in H as [Hc H].
  rewrite (IH H), andb_true_r.
  destruct (isspace c); simpl in *; [|reflexivity].
  apply andb_true_iff in Hc as [-> Hst]. simpl.
  apply negb_true_iff in Hst. rewrite (starts_space_prefix _ _ Hst).
  reflexivity.
Qed.

Lemma tidy_strip (s : list ascii) : tidy s = true -> tidy (strip s) = true.
Proof.
  intros H. unfold strip.
  destruct (lstrip_app s) as (t & Ht & _).
  destruct (rstrip_app (lstrip s)) as (u & Hu).
  rewrite Ht in H. apply tidy_suffix in H.
  rewrite Hu in H. apply tidy_prefix in H. exact H.
Qed.

(** ** The five steps *)

Lemma preprocess_text_steps (x : list ascii) :
  preprocess_text x = strip (collapse (step4 x)).
Proof. reflexivity. Qed.

Lemma step4_filter (x : list ascii) : step4 x = filter kept (step3 x).
Proof.
  unfold step4, SPECIAL. rewrite sub_class_delete.
  apply filter_ext. intros c. apply negb_involutive.
Qed.

Lemma step4_subseq_lower (x : list ascii) : subseq (step4 x) (lower x).
Proof.
  unfold step4, step3, step2, step1.
  eapply subseq_trans; [apply sub_delete_subseq|].
  eapply subseq_trans; [apply sub_delete_subseq|].
  apply sub_delete_subseq.
Qed.

(** Every character of the result is a kept character. *)
Lemma preprocess_text_kept (x : list ascii) :
  Forall (fun c => kept c = true) (preprocess_text x).
Proof.
  rewrite preprocess_text_steps. apply Forall_forall. intros c Hin.
  apply (subseq_In _ _ _ (subseq_strip _)) in Hin.
  apply collapse_In in Hin as [Hin| ->]; [|reflexivity].
  rewrite step4_filter in Hin. apply filter_In in Hin. tauto.
Qed.

(** Every character of the result is its own lower case. *)
Lemma preprocess_text_lowered (x : list ascii) :
  Forall (fun c => tolower c = c) (preprocess_text x).
Proof.
  rewrite preprocess_text_steps. apply Forall_forall. intros c Hin.
  apply (subseq_In _ _ _ (subseq_strip _)) in Hin.
  apply collapse_In in Hin as [Hin| ->]; [|reflexivity].
  apply (subseq_In _ _ _ (step4_subseq_lower x)) in Hin.
  unfold lower in Hin. apply in_map_iff in Hin as (c0 & <- & _).
  apply tolower_idem.
Qed.

Lemma preprocess_text_tidy (x : list ascii) : tidy (preprocess_text x) = true.
Proof. rewrite preprocess_text_steps. apply tidy_strip, tidy_collapse. Qed.

(** Normalisation never adds a word. *)
Lemma word_count_preprocess_text (x : list ascii) :
  word_count (preprocess_text x) <= word_count x.
Proof.
  rewrite preprocess_text_steps.
  eapply Nat.le_trans; [apply word_count_subseq, subseq_strip|].
  rewrite word_count_starts, word_starts_collapse, <- word_count_starts.
  eapply Nat.le_trans; [apply word_count_subseq, step4_subseq_lower|].
  rewrite word_count_lower. reflexivity.
Qed.

End PreprocessFacts.

(* ===================================================================== *)
(** * Normal forms of [preprocess_text] *)
(* ===================================================================== *)

Module NormalForm.

Import WordCount ReFacts PreprocessFacts.

Lemma has_www_url_app (pre t : list ascii) :
  starts_www_url t = true -> has_www_url (pre ++ t) = true.
Proof.
  intros Ht. induction pre as [|c pre IH]; cbn [app has_www_url].
  - destruct t as [|c t]; [discriminate|]. cbn [has_www_url].
    rewrite Ht. reflexivity.
  - rewrite IH. apply orb_true_r.
Qed.

Lemma lower_fixed (y : list ascii) :
  Forall (fun c => tolower c = c) y -> lower y = y.
Proof.
  unfold lower. induction 1 as [|c y Hc _ IH]; simpl; [reflexivity|].
  rewrite Hc, IH. reflexivity.
Qed.

Lemma filter_fixed (p : ascii -> bool) (y : list ascii) :
  Forall (fun c => p c = true) y -> filter p y = y.
Proof.
  induction 1 as [|c y Hc _ IH]; simpl; [reflexivity|].
  rewrite Hc, IH. reflexivity.
Qed.

(** ** Words of the three deleting patterns *)

Lemma matches_lit (l w : list ascii) : matches (lit l) w -> w = l.
Proof.
  revert w. induction l as [|c l IH]; simpl; intros w H.
  - inversion H. reflexivity.
  - inversion H as [| | |? ? w1 w2 H1 H2| | | | | |]; subst.
    inversion H1; subst. simpl. f_equal. apply IH, H2.
Qed.

Lemma matches_lit_seq (l : list ascii) (r : regex) (w : list ascii) :
  matches (Seq (lit l) r) w -> exists v, w = l ++ v /\ matches r v.
Proof.
  intros H. inversion H as [| | |? ? w1 w2 H1 H2| | | | | |]; subst.
  apply matches_lit in H1 as ->. eauto.
Qed.

(** A tag begins with [<]. *)
Lemma matches_HTML_TAG (w : list ascii) :
  matches HTML_TAG w -> exists v, w = "<"%char :: v.
Proof.
  unfold HTML_TAG. intros H.
  inversion H as [| | |? ? w1 w2 H1 H2| | | | | |]; subst.
  inversion H1; subst. simpl. eauto.
Qed.

(** A URL contains a colon, or is [www.] followed by a character that is not
    whitespace. *)
Lemma matches_URL (w : list ascii) :
  matches URL w -> In ":"%char w \/ starts_www_url w = true.
Proof.
  unfold URL. intros H.
  inversion H as [| | | |? ? ? H1|? ? ? H2| | | |]; subst.
  - left. apply (matches_lit_seq (str "http")) in H1 as (v1 & -> & H1).
    inversion H1 as [| | |? ? o v2 Ho H3| | | | | |]; subst.
    apply (matches_lit_seq (str "://")) in H3 as (v3 & -> & _).
    rewrite !in_app_iff. right. right. left. simpl. auto.
  - right. apply (matches_lit_seq (str "www.")) in H2 as (v & -> & Hv).
    inversion Hv as [| | | | | | | | |? v' Hne Hall]; subst.
    destruct v as [|c v]; [contradiction|].
    inversion Hall as [|? ? Hc _]; subst.
    simpl. unfold nonspace in Hc. rewrite Hc. reflexivity.
Qed.

Lemma starts_www_url_app (w s : list ascii) :
  starts_www_url w = true -> starts_www_url (w ++ s) = true.
Proof.
  destruct w as [|c1 [|c2 [|c3 [|c4 [|c5 w]]]]]; try discriminate.
  simpl. auto.
Qed.

(** ** Strings that the five steps leave unchanged *)

Section Fixed.

Variable y : list ascii.
Hypothesis y_kept : Forall (fun c => kept c = true) y.
Hypothesis y_lowered : Forall (fun c => tolower c = c) y.
Hypothesis y_tidy : tidy y = true.
Hypothesis y_stripped : strip y = y.
Hypothesis y_no_www : has_www_url y = false.

Lemma fixed_HTML_TAG : sub HTML_TAG [] y = y.
Proof.
  apply sub_no_match. intros pre t Hy.
  destruct (re_match HTML_TAG t) as [n|] eqn:Hm; [exfalso | reflexivity].
  apply re_match_sound in Hm as (w & s' & -> & Hw & _).
  apply matches_HTML_TAG in Hw as (v & ->).
  rewrite Forall_forall in y_kept.
  apply (kept_not_lt "<"); [|reflexivity].
  apply y_kept. rewrite Hy. apply in_or_app. right. left. reflexivity.
Qed.

Lemma fixed_URL : sub URL [] y = y.
Proof.
  apply sub_no_match. intros pre t Hy.
  destruct (re_match URL t) as [n|] eqn:Hm; [exfalso | reflexivity].
  apply re_match_sound in Hm as (w & s' & -> & Hw & _).
  apply matches_URL in Hw as [Hcolon|Hwww].
  - rewrite Forall_forall in y_kept.
    apply (kept_not_colon ":"); [|reflexivity].
    apply y_kept. rewrite Hy, !in_app_iff. auto.
  - apply (starts_www_url_app _ s'), (has_www_url_app pre) in Hwww.
    rewrite <- Hy, y_no_www in Hwww. discriminate.
Qed.

Lemma fixed_SPECIAL : sub SPECIAL [] y = y.
Proof.
  unfold SPECIAL. rewrite sub_class_delete.
  rewrite (filter_ext _ kept) by (intros c; apply negb_involutive).
  apply filter_fixed, y_kept.
Qed.

Lemma fixed_preprocess_text : preprocess_text y = y.
Proof.
  unfold preprocess_text.
  rewrite (lower_fixed y y_lowered), fixed_HTML_TAG, fixed_URL, fixed_SPECIAL.
  change (sub SPACES (str " ") y) with (collapse y).
  rewrite (collapse_tidy y y_tidy). exact y_stripped.
Qed.

End Fixed.

Lemma preprocess_text_stripped (x : list ascii) :
  strip (preprocess_text x) = preprocess_text x.
Proof. rewrite preprocess_text_steps. apply strip_idem. Qed.

End NormalForm.

(* ===================================================================== *)
(** * Facts about the handlers *)
(* ===================================================================== *)

Module HandlerFacts.

Import WordCount ReFacts PreprocessFacts.

Section WithModel.

Variable p : pipeline_t.

Lemma analyze_eq (t : list ascii) :
  analyze p t =
  (match p (model_input t) with
   | inl message => inl (Exception message)
   | inr result => inr (results_of result)
   end,
   [AnalyzeCall t; PipelineCall (model_input t)]).
Proof.
  unfold analyze, call_pipeline, bind, emit, ret, raise.
  fold (word_count t). fold (first_words 250 t). fold (model_input t).
  destruct (p (model_input t)); reflexivity.
Qed.

Lemma model_input_budget (t : list ascii) : word_count (model_input t) <= 250.
Proof.
  unfold model_input. destruct (250 <? word_count t) eqn:H.
  - unfold first_words. rewrite word_count_first_words. lia.
  - apply Nat.ltb_ge in H. exact H.
Qed.

Lemma analyze_calls_budget (t : list ascii) :
  Forall within_budget (calls (analyze p t)).
Proof.
  rewrite analyze_eq. unfold calls. simpl.
  constructor; [exact I|].
  constructor; [apply model_input_budget | constructor].
Qed.

(** A review that passes the first check never trips the second one. *)
Lemma recheck_false (review : ReviewRequest) :
  rejected review = false ->
  (250 <? length (split (submitted 250 review))) && negb (truncate review)
  = false.
Proof.
  unfold rejected, submitted. intros H.
  destruct (truncate review); [apply andb_false_r|].
  rewrite andb_true_r in H. rewrite H. simpl. rewrite andb_true_r.
  apply Nat.ltb_ge. unfold too_long in H. apply Nat.ltb_ge in H.
  fold (word_count (preprocess_text (text review))).
  pose proof (word_count_preprocess_text (text review)). lia.
Qed.

Lemma analyze_sentiment_eq (review : ReviewRequest) :
  analyze_sentiment p review =
  if rejected review then (inl (HTTPException 400 SINGLE_LIMIT_DETAIL), [])
  else
    (match p (model_input (submitted 500 review)) with
     | inl message =>
         inl (HTTPException 500 (str "Error analyzing sentiment: " ++ message))
     | inr result =>
         inr (make_response (results_of result) (review_id review)
                (source review) (too_long review && truncate review))
     end,
     item_calls 500 review).
Proof.
  unfold analyze_sentiment.
  fold (word_count (text review)). fold (too_long review).
  fold (rejected review).
  destruct (rejected review); [reflexivity|].
  fold (first_words 500 (preprocess_text (text review))).
  fold (submitted 500 review).
  rewrite analyze_eq. unfold item_calls.
  destruct (p (model_input (submitted 500 review))); reflexivity.
Qed.

Lemma batch_loop_cons (g : bool) (review : ReviewRequest)
  (todo : list ReviewRequest) (acc : list SentimentResponse) :
  batch_loop p g (review :: todo) acc =
  if rejected review
  then (inl (HTTPException 400 (batch_limit_detail (review_id review))), [])
  else
    a <- analyze p (submitted 250 review) ;;
    batch_loop p g todo
      (acc ++ [make_response a (review_id review) (source review)
                 (too_long review && truncate review)]).
Proof.
  cbn [batch_loop hasattr_truncate negb].
  fold (word_count (text review)). fold (too_long review).
  fold (rejected review).
  destruct (rejected review) eqn:Hrej; [reflexivity|].
  fold (first_words 250 (preprocess_text (text review))).
  fold (submitted 250 review).
  rewrite (recheck_false review Hrej). reflexivity.
Qed.

(** The global flag of a batch is never read. *)
Lemma batch_loop_global (g1 g2 : bool) (todo : list ReviewRequest) :
  forall acc, batch_loop p g1 todo acc = batch_loop p g2 todo acc.
Proof.
  induction todo as [|review todo IH]; intros acc; [reflexivity|].
  rewrite !batch_loop_cons. destruct (rejected review); [reflexivity|].
  unfold bind. destruct (analyze p (submitted 250 review)) as [[e|a] w];
    [reflexivity|].
  rewrite IH. reflexivity.
Qed.

(** A loop that returns has answered every review, in order. *)
Lemma batch_loop_returns (g : bool) (todo : list ReviewRequest) :
  forall acc out,
    outcome (batch_loop p g todo acc) = inr out ->
    exists rs, out = acc ++ rs /\ Forall2 (answers p) todo rs
               /\ calls (batch_loop p g todo acc)
                  = flat_map (item_calls 250) todo.
Proof.
  induction todo as [|review todo IH]; intros acc out.
  - simpl. intros [= <-]. exists []. rewrite app_nil_r. auto.
  - rewrite batch_loop_cons. destruct (rejected review) eqn:Hrej;
      [discriminate|].
    rewrite analyze_eq. unfold bind.
    destruct (p (model_input (submitted 250 review))) as [m|result] eqn:Hp;
      [discriminate|].
    specialize (IH (acc ++ [make_response (results_of result)
                              (review_id review) (source review)
                              (too_long review && truncate review)]) out).
    destruct (batch_loop p g todo _) as [o w].
    unfold outcome, calls in *. simpl in *. intros ->.
    destruct (IH eq_refl) as (rs & -> & Hall & ->).
    eexists (_ :: rs). rewrite <- app_assoc. simpl.
    split; [reflexivity|]. split; [|reflexivity].
    constructor; [|exact Hall]. split; [exact Hrej|]. eauto.
Qed.

(** Every run of the loop ends in one of three ways. *)
Lemma batch_loop_outcomes (g : bool) (todo : list ReviewRequest) :
  forall acc,
    match outcome (batch_loop p g todo acc) with
    | inr _ => True
    | inl (HTTPException status_code detail) =>
        status_code = 400%Z
        /\ exists review, In review todo /\ rejected review = true
                          /\ detail = batch_limit_detail (review_id review)
    | inl (Exception _) => True
    end.
Proof.
  induction todo as [|review todo IH]; intros acc; [exact I|].
  rewrite batch_loop_cons. destruct (rejected review) eqn:Hrej.
  - simpl. split; [reflexivity|]. exists review. simpl. auto.
  - rewrite analyze_eq. unfold bind.
    destruct (p (model_input (submitted 250 review))); [exact I|].
    specialize (IH (acc ++ [make_response (results_of r) (review_id review)
                              (source review)
                              (too_long review && truncate review)])).
    destruct (batch_loop p g todo _) as [[[st d|m]|out] w]; simpl in *; auto.
    destruct IH as (-> & rv & Hin & Hr & ->). split; [reflexivity|].
    exists rv. auto.
Qed.

Lemma batch_loop_calls_budget (g : bool) (todo : list ReviewRequest) :
  forall acc, Forall within_budget (calls (batch_loop p g todo acc)).
Proof.
  induction todo as [|review todo IH]; intros acc; [constructor|].
  rewrite batch_loop_cons. destruct (rejected review); [constructor|].
  pose proof (analyze_calls_budget (submitted 250 review)) as Ha.
  unfold bind. destruct (analyze p (submitted 250 review)) as [[e|a] w];
    [exact Ha|].
  specialize (IH (acc ++ [make_response a (review_id review) (source review)
                            (too_long review && truncate review)])).
  destruct (batch_loop p g todo _) as [o w'].
  unfold calls in *. simpl in *. apply Forall_app. auto.
Qed.

(** The loop in front of the first rejected review. *)
Lemma batch_loop_rejects (g : bool) (pre : list ReviewRequest)
  (review : ReviewRequest) (post : list ReviewRequest) :
  Forall (fun r => rejected r = false) pre ->
  rejected review = true ->
  forall acc,
    (exists e k,
        batch_loop p g (pre ++ review :: post) acc
        = (inl e, flat_map (item_calls 250) (firstn k pre))
        /\ (e = HTTPException 400 (batch_limit_detail (review_id review))
            \/ exists message, e = Exception message))
    /\ ((forall r, In r pre ->
                   exists result,
                     p (model_input (submitted 250 r)) = inr result) ->
        batch_loop p g (pre ++ review :: post) acc
        = (inl (HTTPException 400 (batch_limit_detail (review_id review))),
           flat_map (item_calls 250) pre)).
Proof.
  intros Hpre Hrej. induction Hpre as [|r pre Hr _ IH]; intros acc.
  - cbn [app]. rewrite batch_loop_cons, Hrej. split; [|reflexivity].
    exists (HTTPException 400 (batch_limit_detail (review_id review))), 0.
    auto.
  - cbn [app]. rewrite batch_loop_cons, Hr, analyze_eq. unfold bind.
    destruct (p (model_input (submitted 250 r))) as [m|result] eqn:Hp.
    + split.
      * exists (Exception m), 1. simpl. eauto.
      * intros Hall. destruct (Hall r (or_introl eq_refl)) as (x & Hx).
        congruence.
    + specialize (IH (acc ++ [make_response (results_of result) (review_id r)
                               (source r) (too_long r && truncate r)])).
      destruct IH as ((e & k & Hfail & He) & Hok). split.
      * exists e, (S k). rewrite Hfail. auto.
      * intros Hall. rewrite Hok; [reflexivity|].
        intros r' Hin. apply Hall. right. exact Hin.
Qed.

End WithModel.

End HandlerFacts.

(* ===================================================================== *)
(** * More facts used by the main results *)
(* ===================================================================== *)

Module Support.

Import WordCount ReFacts PreprocessFacts NormalForm HandlerFacts.

Lemma subseq_length {A} (t s : list A) : subseq t s -> length t <= length s.
Proof. induction 1; simpl; lia. Qed.

Lemma re_match_nil (r : regex) (n : nat) : re_match r [] = Some n -> n = 0.
Proof.
  unfold re_match. destruct (bt r [] _); [|discriminate].
  simpl. intros [= <-]. reflexivity.
Qed.

(** A deletion that finds a non-empty match shortens the string. *)
Lemma sub_delete_shorter (r : regex) (s : list ascii) :
  (exists pre t n, s = pre ++ t /\ re_match r t = Some (S n)) ->
  length (sub r [] s) < length s.
Proof.
  induction s as [|c s IH]; intros (pre & t & n & Hs & Hm).
  - symmetry in Hs. apply app_eq_nil in Hs as [_ ->].
    apply re_match_nil in Hm. discriminate.
  - assert (Htail : re_match r (c :: s) <> Some (S n) ->
                    length (sub r [] s) < length s).
    { intros Hne. apply IH. destruct pre as [|c' pre].
      - simpl in Hs. subst t. contradiction.
      - injection Hs as -> ->. eauto. }
    rewrite sub_cons. destruct (re_match r (c :: s)) as [[|m]|] eqn:Hc.
    + simpl. apply -> Nat.succ_lt_mono. apply Htail. discriminate.
    + simpl.
      pose proof (subseq_length _ _ (sub_delete_subseq r (skipn m s))).
      pose proof (subseq_length _ _ (subseq_skipn m s)). lia.
    + simpl. apply -> Nat.succ_lt_mono. apply Htail. discriminate.
Qed.

Lemma has_www_url_split (y : list ascii) :
  has_www_url y = true ->
  exists pre t, y = pre ++ t /\ starts_www_url t = true.
Proof.
  induction y as [|c y IH]; [discriminate|].
  cbn [has_www_url]. intros H. apply orb_true_iff in H as [H|H].
  - exists [], (c :: y). auto.
  - destruct (IH H) as (pre & t & -> & Ht). exists (c :: pre), t. auto.
Qed.

(** The pattern does match where [www.] is followed by a character that is
    not whitespace. *)
Lemma re_match_www (t : list ascii) :
  starts_www_url t = true -> exists n, re_match URL t = Some (S n).
Proof.
  destruct t as [|c1 [|c2 [|c3 [|c4 [|c5 t]]]]]; try discriminate.
  cbn [starts_www_url]. intros H.
  repeat (apply andb_true_iff in H as [H ?]).
  repeat match goal with
         | E : Ascii.eqb _ _ = true |- _ => apply Ascii.eqb_eq in E; subst
         end.
  exists (4 + span nonspace t).
  unfold re_match, URL. cbn [bt lit str list_ascii_of_string Ascii.eqb
                             Bool.eqb].
  rewrite greedy_plus_accept. unfold nonspace at 1.
  match goal with E : negb _ = true |- _ => rewrite E end.
  f_equal. pose proof (length_drop_while nonspace t). cbn [length]. lia.
Qed.

Lemma collapse_length (s : list ascii) : length (collapse s) <= length s.
Proof.
  induction s as [s IH] using length_induction.
  destruct s as [|c r]; [reflexivity|].
  rewrite collapse_cons. pose proof (drop_while_shorter isspace r).
  destruct (isspace c); simpl.
  - specialize (IH (drop_while isspace r)). simpl in IH. lia.
  - specialize (IH r). simpl in IH. lia.
Qed.

Lemma preprocess_text_length (x : list ascii) :
  length (preprocess_text x) <= length (step3 x).
Proof.
  rewrite preprocess_text_steps.
  pose proof (subseq_length _ _ (subseq_strip (collapse (step4 x)))).
  pose proof (collapse_length (step4 x)).
  pose proof (subseq_length _ _ (sub_delete_subseq SPECIAL (step3 x))).
  unfold step4 in *. lia.
Qed.

(** A second pass over a result that contains a [www.] address shortens it. *)
Lemma second_pass_shorter (y : list ascii) :
  Forall (fun c => kept c = true) y ->
  Forall (fun c => tolower c = c) y ->
  has_www_url y = true ->
  length (preprocess_text y) < length y.
Proof.
  intros Hkept Hlow Hwww.
  pose proof (preprocess_text_length y) as Hlen.
  unfold step3, step2, step1 in Hlen.
  rewrite (lower_fixed y Hlow), (fixed_HTML_TAG y Hkept) in Hlen.
  apply has_www_url_split in Hwww as (pre & t & -> & Ht).
  apply re_match_www in Ht as (n & Hn).
  assert (length (sub URL [] (pre ++ t)) < length (pre ++ t)).
  { apply sub_delete_shorter. eauto. }
  lia.
Qed.

Lemma kept_cases (c : ascii) :
  kept c = true ->
  isalnum c = true \/ c = "_"%char \/ isspace c = true
  \/ In c (str ".,!?").
Proof.
  unfold kept, is_word. intros H.
  assert (Hcode : forall n, (code c =? n)%N = true -> c = ascii_of_N n).
  { intros n E. apply N.eqb_eq in E. rewrite <- E.
    symmetry. apply ascii_N_embedding. }
  destruct (isalnum c); [auto|]. destruct (isspace c); [auto|].
  cbn [orb] in H. right.
  destruct (code c =? 95)%N eqn:E95; [left; apply (Hcode _ E95)|].
  right. right. cbn [orb] in H. simpl.
  destruct (code c =? 46)%N eqn:E46;
    [left; symmetry; apply (Hcode _ E46)|].
  destruct (code c =? 44)%N eqn:E44;
    [right; left; symmetry; apply (Hcode _ E44)|].
  destruct (code c =? 33)%N eqn:E33;
    [right; right; left; symmetry; apply (Hcode _ E33)|].
  destruct (code c =? 63)%N eqn:E63;
    [right; right; right; left; symmetry; apply (Hcode _ E63)|].
  discriminate.
Qed.

(** The two shapes of the dictionary built by [analyze]. *)
Lemma results_of_positive (r : RawResult) :
  str_eqb (label r) (str "POSITIVE") = true ->
  results_of r =
  {| res_sentiment := str "positive";
     res_confidence := score r;
     res_normalized_score := score r;
     res_detailed_scores :=
       [(str "POSITIVE", score r); (str "NEGATIVE", (1 - score r)%Q)] |}.
Proof. unfold results_of. intros ->. reflexivity. Qed.

Lemma results_of_negative (r : RawResult) :
  str_eqb (label r) (str "POSITIVE") = false ->
  results_of r =
  {| res_sentiment := str "negative";
     res_confidence := score r;
     res_normalized_score := (- score r)%Q;
     res_detailed_scores :=
       [(str "POSITIVE", (1 - score r)%Q); (str "NEGATIVE", score r)] |}.
Proof. unfold results_of. intros ->. reflexivity. Qed.

Section WithModel.

Variable p : pipeline_t.

Lemma analyze_batch_eq (request : BatchReviewRequest) :
  analyze_batch p request =
  (match outcome (batch_loop p (batch_truncate request) (reviews request) [])
   with
   | inl (HTTPException status_code detail) =>
       inl (HTTPException status_code detail)
   | inl (Exception message) =>
       inl (HTTPException 500
              (str "Error analyzing batch sentiment: " ++ message))
   | inr rs => inr {| results := rs |}
   end,
   calls (batch_loop p (batch_truncate request) (reviews request) [])).
Proof.
  unfold analyze_batch, try_except, bind, outcome, calls.
  destruct (batch_loop p _ _ _) as [[[st d|m]|rs] w]; simpl;
    rewrite app_nil_r; reflexivity.
Qed.

(** The response at the position of a review, in a batch that succeeded. *)
Lemma analyze_batch_item (g : bool) (pre : list ReviewRequest)
  (review : ReviewRequest) (post : list ReviewRequest)
  (resp : BatchSentimentResponse) :
  outcome (analyze_batch p {| reviews := pre ++ review :: post;
                              batch_truncate := g |}) = inr resp ->
  (exists r, nth_error (results resp) (length pre) = Some r
             /\ answers p review r)
  /\ calls (analyze_batch p {| reviews := pre ++ review :: post;
                               batch_truncate := g |})
     = flat_map (item_calls 250) (pre ++ review :: post).
Proof.
  rewrite analyze_batch_eq. cbn [outcome calls fst snd reviews batch_truncate].
  destruct (outcome (batch_loop p g (pre ++ review :: post) []))
    as [[st d|m]|rs] eqn:Hloop; try discriminate.
  intros [= <-]. cbn [results].
  destruct (batch_loop_returns p g _ _ _ Hloop) as (rs' & -> & Hall & Hcalls).
  split; [|exact Hcalls]. simpl.
  apply Forall2_app_inv_l in Hall as (r1 & r2 & H1 & H2 & ->).
  inversion H2 as [|? r ? r2' Hr _]; subst.
  exists r. split; [|exact Hr].
  rewrite nth_error_app2; rewrite (Forall2_length H1); [|lia].
  rewrite Nat.sub_diag. reflexivity.
Qed.

End WithModel.

End Support.

(* ===================================================================== *)
(** * Main results *)
(* ===================================================================== *)

Import WordCount ReFacts PreprocessFacts NormalForm HandlerFacts Support.

(** ** The repository's unit tests of [preprocess_text] *)

(** The assertions of [tests/test_preprocessing.py]. *)
Example test_lowercase :
  preprocess_text (str "HELLO WORLD") = str "hello world".
Proof. vm_compute. reflexivity. Qed.

Example test_whitespace :
  preprocess_text (str "too    many    spaces") = str "too many spaces".
Proof. vm_compute. reflexivity. Qed.

Example test_html :
  preprocess_text (str "<p>text with html</p>") = str "text with html".
Proof. vm_compute. reflexivity. Qed.

Example test_url :
  preprocess_text (str "check out https://example.com") = str "check out".
Proof. vm_compute. reflexivity. Qed.

Example test_special :
  preprocess_text (str "text with #hashtag and @mention")
  = str "text with hashtag and mention".
Proof. vm_compute. reflexivity. Qed.

Example test_punctuation :
  preprocess_text (str "This has, some. punctuation!")
  = str "this has, some. punctuation!".
Proof. vm_compute. reflexivity. Qed.

Example test_batch_processing :
  clean_review_batch
    [str "This is GREAT!"; str "<p>HTML content</p>";
     str "URL: https://example.com"]
  = [str "this is great!"; str "html content"; str "url"].
Proof. vm_compute. reflexivity. Qed.

(** [test_batch_with_mixed_truncation] of [tests/test_api.py], the model
    being replaced by one that always answers [POSITIVE]: the second review
    is truncated, the third one keeps its own default flag. *)
Example test_batch_with_mixed_truncation :
  option_map
    (fun m => match outcome m with
              | inr resp => Some (map truncated (results resp))
              | inl _ => None
              end)
    (post_analyze_batch (model_says "POSITIVE" (9 # 10)) mixed_body)
  = Some (Some [false; true; false]).
Proof. vm_compute. reflexivity. Qed.

(** An exception raised by the model reaches the client as a 500 error. *)
Example model_failure_is_server_error :
  analyze_sentiment model_fails short_review
  = (inl (HTTPException 500
            (str "Error analyzing sentiment: CUDA out of memory")),
     [AnalyzeCall (str "great product, very satisfied!");
      PipelineCall (str "great product, very satisfied!")]).
Proof. vm_compute. reflexivity. Qed.

(** ** C1: truncation of long texts *)

(** C1.  For a review of more than 250 words whose [truncate] flag is true:
    the single-item handler passes the first 500 words of the normalised
    text to the analyzer and, when the model answers, responds with
    [truncated = true] (when the model raises, with a 500 error); in a batch
    that succeeds, the analyzer was called with the first 250 words of the
    normalised text and the response at the review's position has
    [truncated = true]. *)
Theorem truncation_applied_when_too_long
  (p : pipeline_t) (review : ReviewRequest) :
  250 < word_count (text review) ->
  truncate review = true ->
  let t500 := first_words 500 (preprocess_text (text review)) in
  let t250 := first_words 250 (preprocess_text (text review)) in
  analyze_sentiment p review =
    (match p (model_input t500) with
     | inl message =>
         inl (HTTPException 500 (str "Error analyzing sentiment: " ++ message))
     | inr result =>
         inr (make_response (results_of result) (review_id review)
                (source review) true)
     end,
     [AnalyzeCall t500; PipelineCall (model_input t500)])
  /\ forall g pre post resp,
       let request := {| reviews := pre ++ review :: post;
                         batch_truncate := g |} in
       outcome (analyze_batch p request) = inr resp ->
       In (AnalyzeCall t250) (calls (analyze_batch p request))
       /\ exists r, nth_error (results resp) (length pre) = Some r
                    /\ truncated r = true.
Proof.
  intros Hlong Htrunc t500 t250.
  assert (Hlong' : too_long review = true) by (apply Nat.ltb_lt, Hlong).
  assert (Hrej : rejected review = false)
    by (unfold rejected; rewrite Htrunc; apply andb_false_r).
  assert (Hsub : forall n, submitted n review
                           = first_words n (preprocess_text (text review)))
    by (intros n; unfold submitted; rewrite Hlong', Htrunc; reflexivity).
  split.
  - rewrite analyze_sentiment_eq, Hrej. unfold item_calls.
    rewrite Hsub, Hlong', Htrunc. reflexivity.
  - intros g pre post resp request Hok.
    destruct (analyze_batch_item p g pre review post resp Hok)
      as ((r & Hnth & _ & result & _ & ->) & Hcalls).
    split.
    + unfold request. rewrite Hcalls, flat_map_app, in_app_iff. right.
      simpl. left. rewrite Hsub. reflexivity.
    + exists (make_response (results_of result) (review_id review)
                (source review) (too_long review && truncate review)).
      split; [exact Hnth|]. simpl. rewrite Hlong', Htrunc. reflexivity.
Qed.

Lemma truncation_applied_witness :
  outcome (analyze_sentiment (model_says "POSITIVE" (9 # 10))
             (long_review true))
  = inr (positive_response (Some (str "long1")) true)
  /\ exists r, nth_error (results mixed_batch_response) 1 = Some r
               /\ truncated r = true.
Proof.
  destruct (truncation_applied_when_too_long
              (model_says "POSITIVE" (9 # 10)) (long_review true))
    as [Hsingle Hbatch].
  - vm_compute. lia.
  - reflexivity.
  - split.
    + rewrite Hsingle. reflexivity.
    + apply (Hbatch false [short_review] [] mixed_batch_response).
      vm_compute. reflexivity.
Defined.

(** ** C2: rejection of long texts *)




(** ** C3: short texts pass unchanged *)

(** C3, as stated, fails: the length is measured on the text as received.
    A text of 251 words of which normalisation leaves 250 is reported as
    truncated when [truncate] is true, and rejected when it is false. *)
Lemma truncated_flag_from_raw_text :
  word_count (preprocess_text (text (hash_review true))) = 250
  /\ outcome (analyze_sentiment (model_says "POSITIVE" (9 # 10))
                (hash_review true))
     = inr (positive_response None true)
  /\ outcome (analyze_sentiment (model_says "POSITIVE" (9 # 10))
                (hash_review false))
     = inl (HTTPException 400 SINGLE_LIMIT_DETAIL).
Proof. vm_compute. auto. Qed.

(** C3, amended.  For a review whose text as received has at most 250
    words: the single-item handler passes exactly the normalised text to the
    analyzer and to the model and, when the model answers, responds with
    [truncated = false]; in a batch that succeeds, the model was called on
    the normalised text and the response at the review's position has
    [truncated = false]. *)
Theorem short_text_passes_unchanged (p : pipeline_t) (review : ReviewRequest) :
  word_count (text review) <= 250 ->
  let t := preprocess_text (text review) in
  analyze_sentiment p review =
    (match p t with
     | inl message =>
         inl (HTTPException 500 (str "Error analyzing sentiment: " ++ message))
     | inr result =>
         inr (make_response (results_of result) (review_id review)
                (source review) false)
     end,
     [AnalyzeCall t; PipelineCall t])
  /\ forall g pre post resp,
       let request := {| reviews := pre ++ review :: post;
                         batch_truncate := g |} in
       outcome (analyze_batch p request) = inr resp ->
       In (PipelineCall t) (calls (analyze_batch p request))
       /\ exists r, nth_error (results resp) (length pre) = Some r
                    /\ truncated r = false.
Proof.
  intros Hshort t.
  assert (Hlong : too_long review = false) by (apply Nat.ltb_ge, Hshort).
  assert (Hrej : rejected review = false)
    by (unfold rejected; rewrite Hlong; reflexivity).
  assert (Hsub : forall n, submitted n review = t)
    by (intros n; unfold submitted; rewrite Hlong; reflexivity).
  assert (Hin : model_input t = t).
  { unfold model_input.
    pose proof (word_count_preprocess_text (text review)).
    replace (250 <? word_count t) with false; [reflexivity|].
    symmetry. apply Nat.ltb_ge. unfold t. lia. }
  split.
  - rewrite analyze_sentiment_eq, Hrej. unfold item_calls.
    rewrite Hsub, Hin, Hlong. reflexivity.
  - intros g pre post resp request Hok.
    destruct (analyze_batch_item p g pre review post resp Hok)
      as ((r & Hnth & _ & result & _ & ->) & Hcalls).
    split.
    + unfold request. rewrite Hcalls, flat_map_app, in_app_iff. right.
      simpl. right. left. rewrite Hsub, Hin. reflexivity.
    + eexists. split; [exact Hnth|]. simpl. rewrite Hlong. reflexivity.
Qed.

Lemma short_text_witness :
  analyze_sentiment (model_says "POSITIVE" (9 # 10)) short_review
  = (inr (positive_response (Some (str "batch1")) false),
     [AnalyzeCall (str "great product, very satisfied!");
      PipelineCall (str "great product, very satisfied!")])
  /\ exists r, nth_error (results mixed_batch_response) 0 = Some r
               /\ truncated r = false.
Proof.
  destruct (short_text_passes_unchanged
              (model_says "POSITIVE" (9 # 10)) short_review)
    as [Hsingle Hbatch].
  - vm_compute. lia.
  - split.
    + rewrite Hsingle. reflexivity.
    + apply (Hbatch false [] [long_review true] mixed_batch_response).
      vm_compute. reflexivity.
Defined.

(** ** C4: idempotence of normalisation *)




(** ** C5: the characters of a normalised text *)



(** ** C6: detailed scores *)



(** ** C7: sign of the normalised score *)

(** C7, as stated, fails at score 0: the sentiment is positive and the
    normalised score is 0, which is not greater than 0. *)
Lemma zero_score_has_no_sign :
  outcome (analyze (model_says "POSITIVE" 0) (str "fine"))
  = inr (results_of {| label := str "POSITIVE"; score := 0 |})
  /\ res_sentiment (results_of {| label := str "POSITIVE"; score := 0 |})
     = str "positive"
  /\ ~ (0 < res_normalized_score
              (results_of {| label := str "POSITIVE"; score := 0 |}))%Q.
Proof.
  repeat split. vm_compute. discriminate.
Qed.

(** C7, amended.  Whenever the model answers with a score in [0,1]: if the
    sentiment is positive the normalised score is at least 0, and greater
    than 0 when the score is; if the sentiment is negative the normalised
    score is at most 0, and less than 0 when the score is greater than 0. *)
Theorem normalized_score_sign
  (p : pipeline_t) (t : list ascii) (result : RawResult) :
  p (model_input t) = inr result ->
  (0 <= score result)%Q -> (score result <= 1)%Q ->
  exists a,
    outcome (analyze p t) = inr a
    /\ (res_sentiment a = str "positive"
        /\ (0 <= res_normalized_score a)%Q
        /\ ((0 < score result)%Q -> (0 < res_normalized_score a)%Q)
        \/ res_sentiment a = str "negative"
           /\ (res_normalized_score a <= 0)%Q
           /\ ((0 < score result)%Q -> (res_normalized_score a < 0)%Q)).
Proof.
  intros Hp Hlo Hhi. rewrite analyze_eq, Hp. cbn [outcome fst].
  exists (results_of result). split; [reflexivity|].
  destruct (str_eqb (label result) (str "POSITIVE")) eqn:Hlabel.
  - rewrite (results_of_positive result Hlabel). left. simpl. auto.
  - rewrite (results_of_negative result Hlabel). right. simpl.
    split; [reflexivity|]. split.
    + apply (Qopp_le_compat 0), Hlo.
    + intros Hpos. apply (Qopp_lt_compat 0), Hpos.
Qed.

Lemma normalized_score_sign_witness :
  exists a,
    outcome (analyze (model_says "NEGATIVE" (3 # 4)) (str "poor quality"))
    = inr a
    /\ (res_sentiment a = str "positive"
        /\ (0 <= res_normalized_score a)%Q
        /\ ((0 < 3 # 4)%Q -> (0 < res_normalized_score a)%Q)
        \/ res_sentiment a = str "negative"
           /\ (res_normalized_score a <= 0)%Q
           /\ ((0 < 3 # 4)%Q -> (res_normalized_score a < 0)%Q)).
Proof.
  apply (normalized_score_sign (model_says "NEGATIVE" (3 # 4))
           (str "poor quality")
           {| label := str "NEGATIVE"; score := 3 # 4 |}).
  - reflexivity.
  - vm_compute. discriminate.
  - vm_compute. discriminate.
Defined.

(** ** C8: the second length check of the batch handler *)


(** ** C9: what the model sees *)

(** C9.  [analyze] passes to the model its argument cut to the first 250
    words, so every text that either handler submits to the model has at
    most 250 words, whatever the request and its flags. *)
Theorem pipeline_sees_at_most_250_words (p : pipeline_t) :
  (forall t, calls (analyze p t) = [AnalyzeCall t; PipelineCall (model_input t)]
             /\ word_count (model_input t) <= 250)
  /\ (forall review, Forall within_budget (calls (analyze_sentiment p review)))
  /\ (forall request, Forall within_budget (calls (analyze_batch p request))).
Proof.
  split; [|split].
  - intros t. rewrite analyze_eq. split; [reflexivity|].
    apply model_input_budget.
  - intros review. rewrite analyze_sentiment_eq.
    destruct (rejected review); [constructor|].
    unfold calls, item_calls. simpl.
    constructor; [exact I|].
    constructor; [apply model_input_budget | constructor].
  - intros request. rewrite analyze_batch_eq. cbn [calls snd].
    apply batch_loop_calls_budget.
Qed.

(** ** C10: the global flag of a batch *)

(** Every parsed review carries its own flag, [True] when the body has
    none. *)
Lemma parse_ReviewRequest_truncate (b : ReviewBody) (review : ReviewRequest) :
  parse_ReviewRequest b = Some review ->
  truncate review = match body_truncate b with Some t => t | None => true end.
Proof.
  unfold parse_ReviewRequest. destruct (1 <=? length (body_text b));
    [|discriminate].
  intros [= <-]. reflexivity.
Qed.

(** C10.  Every review has the attribute [truncate], so the guard that
    would copy the global flag never fires, and two batch requests that
    differ only in the global flag have the same outcome and make the same
    calls; the same holds for two request bodies that differ only in the
    global flag, present or absent. *)
Theorem batch_ignores_global_truncate
  (p : pipeline_t) (rs : list ReviewRequest) (g1 g2 : bool) :
  (forall review, negb (hasattr_truncate review) = false)
  /\ analyze_batch p {| reviews := rs; batch_truncate := g1 |}
     = analyze_batch p {| reviews := rs; batch_truncate := g2 |}
  /\ (forall bodies o1 o2,
         post_analyze_batch p {| body_reviews := bodies;
                                 body_batch_truncate := o1 |}
         = post_analyze_batch p {| body_reviews := bodies;
                                   body_batch_truncate := o2 |}).
Proof.
  assert (Hglobal : forall items a b,
             analyze_batch p {| reviews := items; batch_truncate := a |}
             = analyze_batch p {| reviews := items; batch_truncate := b |}).
  { intros items a b. rewrite !analyze_batch_eq.
    cbn [reviews batch_truncate].
    rewrite (batch_loop_global p a b). reflexivity. }
  split; [reflexivity|]. split; [apply Hglobal|].
  intros bodies o1 o2. unfold post_analyze_batch, parse_BatchReviewRequest.
  cbn [body_reviews body_batch_truncate].
  destruct (_ && _); [|reflexivity].
  destruct (parse_reviews bodies); [|reflexivity].
  f_equal. apply Hglobal.
Qed.

(* ===================================================================== *)
(** * Further properties of the code *)
(* ===================================================================== *)

From Stdlib Require Import Lqa.

Module TextFacts.

Lemma kept_tolower (c : ascii) : kept (tolower c) = kept c.
Proof. by_cases_on_char c. Qed.

Lemma tolower_lt (c : ascii) : Ascii.eqb (tolower c) "<" = Ascii.eqb c "<".
Proof. by_cases_on_char c. Qed.

Lemma tolower_gt (c : ascii) : Ascii.eqb (tolower c) ">" = Ascii.eqb c ">".
Proof. by_cases_on_char c. Qed.

Lemma tolower_newline (c : ascii) :
  Ascii.eqb (tolower c) newline = Ascii.eqb c newline.
Proof. by_cases_on_char c. Qed.

Lemma dot_not_newline (c : ascii) : c <> newline -> dot c = true.
Proof.
  intros Hc. unfold dot. apply negb_true_iff, N.eqb_neq. intros E.
  apply Hc. unfold newline. rewrite <- E. symmetry. apply ascii_N_embedding.
Qed.

(** ** Whitespace at both ends *)

Lemma starts_space_rev_cons (c : ascii) (r : list ascii) :
  r <> [] -> starts_space (rev (c :: r)) = starts_space (rev r).
Proof.
  intros Hr. simpl. destruct (rev r) as [|x l] eqn:E; [|reflexivity].
  exfalso. apply Hr. rewrite <- (rev_involutive r), E. reflexivity.
Qed.

Lemma strip_fixed_ends (y : list ascii) :
  strip y = y -> starts_space y = false /\ starts_space (rev y) = false.
Proof.
  intros Hy.
  assert (Hstart : starts_space y = false).
  { rewrite <- Hy. unfold strip.
    destruct (rstrip_app (lstrip y)) as (t & Ht).
    apply (starts_space_prefix _ t). rewrite <- Ht. apply lstrip_starts. }
  split; [exact Hstart|].
  unfold strip in Hy. rewrite (lstrip_fixed y Hstart) in Hy.
  unfold rstrip in Hy. apply (f_equal (@rev ascii)) in Hy.
  rewrite rev_involutive in Hy. rewrite <- Hy. apply lstrip_starts.
Qed.

Lemma rstrip_app_spaces (s : list ascii) :
  exists t, s = rstrip s ++ t /\ Forall (fun c => isspace c = true) t.
Proof.
  unfold rstrip. destruct (lstrip_app (rev s)) as (t & Ht & Hall).
  exists (rev t). split.
  - rewrite <- rev_app_distr, <- Ht, rev_involutive. reflexivity.
  - apply Forall_rev, Hall.
Qed.

(** ** [split] and the steps of normalisation *)

Lemma split_spaces (t : list ascii) :
  Forall (fun c => isspace c = true) t -> split t = [].
Proof. induction 1 as [|c t Hc _ IH]; simpl; [|rewrite Hc]; auto. Qed.

Lemma starts_word_spaces (t : list ascii) :
  Forall (fun c => isspace c = true) t -> starts_word t = false.
Proof. destruct 1 as [|c t Hc _]; simpl; [|rewrite Hc]; reflexivity. Qed.

Lemma split_app_spaces (a t : list ascii) :
  Forall (fun c => isspace c = true) t -> split (a ++ t) = split a.
Proof.
  intros Ht. induction a as [|c a IH]; simpl; [apply split_spaces, Ht|].
  rewrite IH. destruct (isspace c); [reflexivity|].
  destruct a as [|c' a]; simpl; [|reflexivity].
  rewrite (starts_word_spaces t Ht). reflexivity.
Qed.

Lemma split_lstrip (s : list ascii) : split (lstrip s) = split s.
Proof.
  induction s as [|c r IH]; [reflexivity|].
  cbn [lstrip]. destruct (isspace c) eqn:Hc; [|reflexivity].
  rewrite IH. simpl. rewrite Hc. reflexivity.
Qed.

Lemma split_strip (s : list ascii) : split (strip s) = split s.
Proof.
  unfold strip. destruct (rstrip_app_spaces (lstrip s)) as (t & Ht & Hall).
  rewrite <- (split_lstrip s). rewrite Ht at 2.
  rewrite split_app_spaces by exact Hall. reflexivity.
Qed.

Lemma split_drop_while (s : list ascii) :
  split (drop_while isspace s) = split s.
Proof.
  induction s as [|c r IH]; [reflexivity|].
  cbn [drop_while]. destruct (isspace c) eqn:Hc; [|reflexivity].
  rewrite IH. simpl. rewrite Hc. reflexivity.
Qed.

Lemma starts_word_collapse (s : list ascii) :
  starts_word (collapse s) = starts_word s.
Proof.
  destruct s as [|c r]; [reflexivity|].
  rewrite collapse_cons. simpl. destruct (isspace c) eqn:Hc; simpl; auto.
  rewrite Hc. reflexivity.
Qed.

Lemma split_collapse (s : list ascii) : split (collapse s) = split s.
Proof.
  induction s as [s IH] using length_induction.
  destruct s as [|c r]; [reflexivity|].
  rewrite collapse_cons. destruct (isspace c) eqn:Hc.
  - simpl. rewrite Hc. rewrite IH, split_drop_while; [reflexivity|].
    pose proof (drop_while_shorter isspace r). simpl. lia.
  - simpl. rewrite Hc, starts_word_collapse, IH; [reflexivity|].
    simpl. lia.
Qed.

Lemma starts_word_lower (s : list ascii) :
  starts_word (lower s) = starts_word s.
Proof.
  destruct s as [|c r]; [reflexivity|]. simpl.
  rewrite isspace_tolower. reflexivity.
Qed.

Lemma split_lower (s : list ascii) : split (lower s) = map lower (split s).
Proof.
  induction s as [|c r IH]; [reflexivity|].
  change (lower (c :: r)) with (tolower c :: lower r).
  simpl. rewrite isspace_tolower. destruct (isspace c); [exact IH|].
  rewrite starts_word_lower, IH.
  destruct (starts_word r); [|reflexivity].
  destruct (split r); reflexivity.
Qed.

(** The words of a normalised text are the words left by step 4. *)
Lemma split_preprocess_text (x : list ascii) :
  split (preprocess_text x) = split (step4 x).
Proof. rewrite preprocess_text_steps, split_strip, split_collapse. reflexivity. Qed.

(** ** [join] after [split] *)

Lemma join_cons_word (sep : list ascii) (c : ascii) (w : list ascii)
  (ws : list (list ascii)) :
  join sep ((c :: w) :: ws) = c :: join sep (w :: ws).
Proof. destruct ws; reflexivity. Qed.

(** A text whose only whitespace is single spaces between words is the join
    of its words. *)
Lemma join_split_normal (y : list ascii) :
  tidy y = true -> strip y = y -> join (str " ") (split y) = y.
Proof.
  intros Htidy Hstrip. apply strip_fixed_ends in Hstrip as [Hstart Hend].
  revert Htidy Hstart Hend.
  induction y as [y IH] using length_induction. intros Htidy Hstart Hend.
  destruct y as [|c r]; [reflexivity|].
  simpl in Hstart. simpl in Htidy. rewrite Hstart in Htidy. simpl in Htidy.
  destruct r as [|c' r'].
  - simpl. rewrite Hstart. reflexivity.
  - rewrite starts_space_rev_cons in Hend by discriminate.
    destruct (isspace c') eqn:Hc'.
    + simpl in Htidy. rewrite Hc' in Htidy. simpl in Htidy.
      apply andb_true_iff in Htidy as [Hsp Htidy'].
      apply andb_true_iff in Hsp as [Heq Hnext].
      apply Ascii.eqb_eq in Heq. subst c'. apply negb_true_iff in Hnext.
      destruct r' as [|c2 r2].
      { simpl in Hend. discriminate. }
      rewrite starts_space_rev_cons in Hend by discriminate.
      assert (IHr : join (str " ") (split (c2 :: r2)) = c2 :: r2).
      { apply IH; [simpl; lia | exact Htidy' | exact Hnext | exact Hend]. }
      simpl in Hnext.
      assert (Hsplit : split (c :: " "%char :: c2 :: r2)
                       = [c] :: split (c2 :: r2)).
      { cbn [split starts_word]. rewrite Hstart.
        change (isspace " ") with true. reflexivity. }
      rewrite Hsplit.
      pose proof (starts_word_split (c2 :: r2)) as Hne.
      simpl starts_word in Hne. rewrite Hnext in Hne.
      destruct (split (c2 :: r2)) as [|w ws];
        [exfalso; apply Hne; reflexivity|].
      change (join (str " ") ([c] :: w :: ws))
        with (c :: " "%char :: join (str " ") (w :: ws)).
      rewrite IHr. reflexivity.
    + assert (IHr : join (str " ") (split (c' :: r')) = c' :: r').
      { apply IH; [simpl; lia | exact Htidy | simpl; exact Hc' | exact Hend]. }
      assert (Hsplit : split (c :: c' :: r')
                       = match split (c' :: r') with
                         | w :: ws => (c :: w) :: ws
                         | [] => [[c]]
                         end).
      { cbn [split starts_word]. rewrite Hstart, Hc'. reflexivity. }
      rewrite Hsplit.
      pose proof (starts_word_split (c' :: r')) as Hne.
      simpl starts_word in Hne. rewrite Hc' in Hne.
      destruct (split (c' :: r')) as [|w ws];
        [exfalso; apply Hne; reflexivity|].
      rewrite join_cons_word, IHr. reflexivity.
Qed.

Lemma join_firstn_prefix (sep : list ascii) (ws : list (list ascii)) :
  forall n, exists rest, join sep ws = join sep (firstn n ws) ++ rest.
Proof.
  induction ws as [|w ws IH]; intros n.
  - exists []. rewrite firstn_nil. reflexivity.
  - destruct n as [|n]; [eexists; reflexivity|].
    destruct (IH n) as (rest & Hrest).
    destruct ws as [|w' ws].
    + exists []. cbn [firstn]. rewrite firstn_nil, app_nil_r. reflexivity.
    + destruct n as [|n].
      * exists (sep ++ join sep (w' :: ws)). reflexivity.
      * change (join sep (w :: w' :: ws))
          with (w ++ sep ++ join sep (w' :: ws)).
        change (join sep (firstn (S (S n)) (w :: w' :: ws)))
          with (w ++ sep ++ join sep (firstn (S n) (w' :: ws))).
        exists rest. rewrite Hrest, <- !app_assoc. reflexivity.
Qed.

Lemma first_words_all (n : nat) (t : list ascii) :
  word_count t <= n -> first_words n t = join (str " ") (split t).
Proof.
  intros H. unfold first_words. rewrite firstn_all2; [reflexivity | exact H].
Qed.

Lemma first_words_split (n : nat) (t : list ascii) :
  split (first_words n t) = firstn n (split t).
Proof.
  unfold first_words. apply split_join.
  apply Forall_forall. intros w Hin.
  pose proof (split_tokens t) as Hall. rewrite Forall_forall in Hall.
  apply Hall. eapply subseq_In; [|exact Hin].
  rewrite <- (firstn_skipn n (split t)) at 2. apply subseq_app_r.
Qed.

(** ** The pattern of tags *)

Lemma re_match_HTML_TAG_other (c : ascii) (s : list ascii) :
  c <> "<"%char -> re_match HTML_TAG (c :: s) = None.
Proof.
  intros Hc. unfold re_match, HTML_TAG. cbn [bt].
  destruct (Ascii.eqb_spec "<" c) as [<-|]; [contradiction | reflexivity].
Qed.

Lemma sub_HTML_TAG_prefix (a s : list ascii) :
  ~ In "<"%char a -> sub HTML_TAG [] (a ++ s) = a ++ sub HTML_TAG [] s.
Proof.
  induction a as [|c a IH]; intros Hno; [reflexivity|].
  cbn [app]. rewrite sub_cons, re_match_HTML_TAG_other.
  - rewrite IH; [reflexivity|]. intros Hin. apply Hno. right. exact Hin.
  - intros ->. apply Hno. left. reflexivity.
Qed.

Lemma lazy_star_to_gt (t b : list ascii) :
  Forall (fun c => c <> ">"%char /\ c <> newline) t ->
  lazy_star dot (fun s' => bt (Chr ">") s' (fun rest => Some rest))
    (t ++ ">"%char :: b)
  = Some b.
Proof.
  induction 1 as [|c t [Hgt Hnl] _ IH]; [reflexivity|].
  cbn [app lazy_star bt].
  destruct (Ascii.eqb_spec ">" c) as [<-|]; [contradiction|].
  rewrite (dot_not_newline c Hnl). exact IH.
Qed.

Lemma sub_HTML_TAG_tag (t b : list ascii) :
  Forall (fun c => c <> ">"%char /\ c <> newline) t ->
  sub HTML_TAG [] ("<"%char :: t ++ ">"%char :: b) = sub HTML_TAG [] b.
Proof.
  intros Ht. rewrite sub_cons.
  assert (Hm : re_match HTML_TAG ("<"%char :: t ++ ">"%char :: b)
               = Some (S (S (length t)))).
  { unfold re_match, HTML_TAG.
    change (bt (Seq (Chr "<") (Seq (LazyStar dot) (Chr ">")))
              ("<"%char :: t ++ ">"%char :: b) (fun rest => Some rest))
      with (lazy_star dot
              (fun s' => bt (Chr ">") s' (fun rest => Some rest))
              (t ++ ">"%char :: b)).
    rewrite (lazy_star_to_gt t b Ht). f_equal.
    cbn [length]. rewrite length_app. cbn [length]. lia. }
  rewrite Hm. cbn [app]. f_equal.
  replace (S (length t)) with (length (t ++ [">"%char]))
    by (rewrite length_app; simpl; lia).
  change (">"%char :: b) with ([">"%char] ++ b).
  rewrite app_assoc, skipn_app, skipn_all, Nat.sub_diag. reflexivity.
Qed.

(** ** Length *)

Lemma length_preprocess_text (x : list ascii) :
  length (preprocess_text x) <= length x.
Proof.
  pose proof (preprocess_text_length x) as H1.
  assert (H2 : subseq (step3 x) (lower x)).
  { unfold step3, step2, step1.
    eapply subseq_trans; apply sub_delete_subseq. }
  apply subseq_length in H2. unfold lower in H2.
  rewrite length_map in H2. lia.
Qed.

End TextFacts.

Import TextFacts.

(** ** Normalisation *)






(** Nothing is left of a text of blanks and deleted characters. *)
Lemma blank_text_normalises_to_empty (x : list ascii) :
  Forall leaves_nothing x -> preprocess_text x = [].
Proof.
  intros Hx.
  assert (Hsp : Forall (fun c => isspace c = true) (step4 x)).
  { apply Forall_forall. intros c Hin.
    rewrite step4_filter in Hin. apply filter_In in Hin as [Hin Hk].
    assert (Hlow : In c (lower x)).
    { eapply subseq_In; [|exact Hin]. unfold step3, step2, step1.
      eapply subseq_trans; apply sub_delete_subseq. }
    unfold lower in Hlow. apply in_map_iff in Hlow as (c0 & <- & Hc0).
    rewrite Forall_forall in Hx. destruct (Hx c0 Hc0) as [H|H].
    - rewrite isspace_tolower. exact H.
    - rewrite kept_tolower in Hk. congruence. }
  pose proof (join_split_normal _ (preprocess_text_tidy x)
                (preprocess_text_stripped x)) as Hjoin.
  rewrite <- Hjoin, split_preprocess_text, (split_spaces _ Hsp).
  reflexivity.
Qed.








(** ** Facts about truncation and the handlers *)

Module HandlerMore.

Lemma str_eqb_eq (a b : list ascii) : str_eqb a b = true <-> a = b.
Proof.
  unfold str_eqb. destruct (list_eq_dec ascii_dec a b); split; auto.
  discriminate.
Qed.

Lemma model_input_short (t : list ascii) :
  word_count t <= 250 -> model_input t = t.
Proof.
  intros H. unfold model_input.
  replace (250 <? word_count t) with false; [reflexivity|].
  symmetry. apply Nat.ltb_ge, H.
Qed.

Lemma word_count_first (n : nat) (t : list ascii) :
  word_count (first_words n t) = min n (word_count t).
Proof. apply word_count_first_words. Qed.

(** What a handler submits on the batch path has at most 250 words. *)
Lemma submitted_250_budget (review : ReviewRequest) :
  rejected review = false -> word_count (submitted 250 review) <= 250.
Proof.
  intros Hrej. unfold submitted.
  destruct (too_long review && truncate review) eqn:Hcut.
  - rewrite word_count_first. lia.
  - unfold rejected in Hrej. destruct (too_long review) eqn:Hlong.
    + destruct (truncate review); discriminate.
    + apply Nat.ltb_ge in Hlong.
      pose proof (word_count_preprocess_text (text review)). lia.
Qed.

(** The 500 words of the single-item path and the 250 words of the batch
    path are the same text once [analyze] has made its own cut. *)
Lemma model_input_500_250 (review : ReviewRequest) :
  model_input (submitted 500 review) = model_input (submitted 250 review).
Proof.
  unfold submitted. destruct (too_long review && truncate review);
    [|reflexivity].
  set (y := preprocess_text (text review)).
  rewrite (model_input_short (first_words 250 y))
    by (rewrite word_count_first; lia).
  unfold model_input. rewrite word_count_first.
  destruct (250 <? min 500 (word_count y)) eqn:H.
  - unfold first_words at 1. rewrite first_words_split, firstn_firstn.
    reflexivity.
  - apply Nat.ltb_ge in H.
    rewrite !first_words_all by lia. reflexivity.
Qed.

Lemma model_texts_item_calls (n : nat) (l : list ReviewRequest) :
  model_texts (flat_map (item_calls n) l)
  = map (fun r => model_input (submitted n r)) l.
Proof. induction l as [|r l IH]; simpl; [|rewrite IH]; reflexivity. Qed.

Section WithModel.

Variable p : pipeline_t.

(** The single-item handler returns a response exactly when the review is
    not rejected and the model answers. *)
Lemma analyze_sentiment_returns (review : ReviewRequest)
  (r : SentimentResponse) :
  outcome (analyze_sentiment p review) = inr r <-> answers p review r.
Proof.
  rewrite analyze_sentiment_eq. unfold answers.
  rewrite <- model_input_500_250.
  destruct (rejected review).
  - split; [discriminate | intros [H _]; discriminate].
  - cbn [outcome fst].
    destruct (p (model_input (submitted 500 review))) as [m|result].
    + split; [discriminate | intros (_ & x & Hx & _); discriminate].
    + split.
      * intros [= <-]. eauto.
      * intros (_ & x & [= <-] & ->). reflexivity.
Qed.

Lemma batch_loop_succeeds (g : bool) (todo : list ReviewRequest)
  (rs : list SentimentResponse) :
  Forall2 (answers p) todo rs ->
  forall acc, outcome (batch_loop p g todo acc) = inr (acc ++ rs).
Proof.
  induction 1 as [|review r todo rs (Hrej & result & Hp & ->) _ IH];
    intros acc.
  - simpl. rewrite app_nil_r. reflexivity.
  - rewrite batch_loop_cons, Hrej, analyze_eq, Hp. unfold bind.
    specialize (IH (acc ++ [make_response (results_of result)
                              (review_id review) (source review)
                              (too_long review && truncate review)])).
    destruct (batch_loop p g todo _) as [o w].
    unfold outcome in *. simpl in *. rewrite IH, <- app_assoc. reflexivity.
Qed.

(** Where an error of the loop comes from. *)
Lemma batch_loop_errors (g : bool) (todo : list ReviewRequest) :
  forall acc e,
    outcome (batch_loop p g todo acc) = inl e ->
    (exists review,
        In review todo /\ rejected review = true
        /\ e = HTTPException 400 (batch_limit_detail (review_id review)))
    \/ (exists review message,
           In review todo /\ rejected review = false
           /\ p (model_input (submitted 250 review)) = inl message
           /\ e = Exception message).
Proof.
  induction todo as [|review todo IH]; intros acc e; [discriminate|].
  rewrite batch_loop_cons. destruct (rejected review) eqn:Hrej.
  - intros [= <-]. left. exists review. simpl. auto.
  - rewrite analyze_eq. unfold bind.
    destruct (p (model_input (submitted 250 review))) as [m|result] eqn:Hp.
    + intros [= <-]. right. exists review, m. simpl. auto.
    + specialize (IH (acc ++ [make_response (results_of result)
                                (review_id review) (source review)
                                (too_long review && truncate review)]) e).
      destruct (batch_loop p g todo _) as [o w].
      unfold outcome in *. simpl in *. intros Ho.
      destruct (IH Ho) as [(rv & Hin & H)|(rv & m & Hin & H)].
      * left. exists rv. auto.
      * right. exists rv, m. auto.
Qed.

(** The calls of the loop are those of the first [k] reviews, all of them
    when it returns. *)
Lemma batch_loop_calls_prefix (g : bool) (todo : list ReviewRequest) :
  forall acc,
    exists k,
      k <= length todo
      /\ calls (batch_loop p g todo acc)
         = flat_map (item_calls 250) (firstn k todo)
      /\ (forall out, outcome (batch_loop p g todo acc) = inr out ->
                      k = length todo).
Proof.
  induction todo as [|review todo IH]; intros acc.
  - exists 0. simpl. auto.
  - rewrite batch_loop_cons. destruct (rejected review).
    + exists 0. simpl. repeat split; [lia | discriminate].
    + rewrite analyze_eq. unfold bind.
      destruct (p (model_input (submitted 250 review))) as [m|result].
      * exists 1. simpl. repeat split; [lia | discriminate].
      * destruct (IH (acc ++ [make_response (results_of result)
                                (review_id review) (source review)
                                (too_long review && truncate review)]))
          as (k & Hk & Hcalls & Hall).
        destruct (batch_loop p g todo _) as [o w].
        unfold outcome, calls in *. simpl in *.
        exists (S k). repeat split; [lia | rewrite Hcalls; reflexivity |].
        intros out Ho. rewrite (Hall out Ho). reflexivity.
Qed.

End WithModel.

Lemma parse_reviews_spec (bs : list ReviewBody) (rs : list ReviewRequest) :
  parse_reviews bs = Some rs -> Forall2 parsed_from bs rs.
Proof.
  revert rs. induction bs as [|b bs IH]; intros rs; simpl.
  - intros [= <-]. constructor.
  - unfold parse_ReviewRequest at 1.
    destruct (1 <=? length (body_text b)); [|discriminate].
    destruct (parse_reviews bs) as [rs'|]; [|discriminate].
    intros [= <-]. constructor; [|apply IH; reflexivity].
    repeat split.
Qed.

Lemma parse_reviews_accepts (bs : list ReviewBody) :
  (exists rs, parse_reviews bs = Some rs)
  <-> Forall (fun b => body_text b <> []) bs.
Proof.
  induction bs as [|b bs IH]; simpl.
  - split; [constructor | eauto].
  - unfold parse_ReviewRequest at 1. destruct (body_text b) as [|c t] eqn:Hb.
    + simpl. split; [intros (rs & H); discriminate|].
      intros H. inversion H; subst. congruence.
    + cbn [length Nat.leb]. split.
      * intros (rs & H). destruct (parse_reviews bs) as [rs'|];
          [|discriminate].
        constructor; [rewrite Hb; discriminate | apply IH; eauto].
      * intros H. inversion H as [|? ? _ Hbs]; subst.
        apply IH in Hbs as (rs' & ->). eauto.
Qed.

End HandlerMore.

Import HandlerMore.

(** ** Truncation *)

(** X9.  Cutting a text to its first [n] words keeps exactly those words, in
    order, so the result has [min n] (number of words) words. *)
Theorem first_words_keeps_first (n : nat) (t : list ascii) :
  split (first_words n t) = firstn n (split t)
  /\ word_count (first_words n t) = min n (word_count t).
Proof. split; [apply first_words_split | apply word_count_first]. Qed.

(** X10.  Cutting a normalised text to its first [n] words only removes a
    tail of it, and removes nothing exactly when the text has at most [n]
    words. *)
Theorem truncation_cuts_the_tail (n : nat) (x : list ascii) :
  exists rest,
    preprocess_text x = first_words n (preprocess_text x) ++ rest
    /\ (rest = [] <-> word_count (preprocess_text x) <= n).
Proof.
  set (y := preprocess_text x).
  pose proof (join_split_normal y (preprocess_text_tidy x)
                (preprocess_text_stripped x)) as Hjoin.
  destruct (join_firstn_prefix (str " ") (split y) n) as (rest & Hrest).
  fold (first_words n y) in Hrest. rewrite Hjoin in Hrest.
  exists rest. split; [exact Hrest|]. split.
  - intros ->. rewrite app_nil_r in Hrest.
    rewrite Hrest, word_count_first. lia.
  - intros Hle. rewrite (first_words_all n y Hle), Hjoin in Hrest.
    apply (app_inv_head y). rewrite app_nil_r. symmetry. exact Hrest.
Qed.

(** X11.  The text that [analyze] passes to the model consists of the first
    250 words of its argument, and cutting it again changes nothing. *)
Theorem model_input_first_250 (t : list ascii) :
  split (model_input t) = firstn 250 (split t)
  /\ model_input (model_input t) = model_input t.
Proof.
  split.
  - unfold model_input. destruct (250 <? word_count t) eqn:H.
    + apply first_words_split.
    + apply Nat.ltb_ge in H. rewrite firstn_all2; [reflexivity | exact H].
  - apply model_input_short, model_input_budget.
Qed.

(** ** The two handlers side by side *)

(** X12.  A batch request returns a response exactly when the single-item
    handler returns one for every review, and the results of the batch are
    then those responses, in the order of the reviews. *)
Theorem batch_agrees_with_single
  (p : pipeline_t) (request : BatchReviewRequest)
  (resp : BatchSentimentResponse) :
  outcome (analyze_batch p request) = inr resp
  <-> Forall2 (fun review r => outcome (analyze_sentiment p review) = inr r)
        (reviews request) (results resp).
Proof.
  rewrite analyze_batch_eq. cbn [outcome fst]. split.
  - destruct (outcome (batch_loop p _ _ _)) as [[st d|m]|rs] eqn:Hloop;
      try discriminate.
    intros [= <-]. cbn [results].
    destruct (batch_loop_returns p _ _ _ _ Hloop) as (rs' & -> & Hall & _).
    simpl. eapply Forall2_impl; [|exact Hall].
    intros review r Hr. apply analyze_sentiment_returns, Hr.
  - intros Hall.
    assert (Hans : Forall2 (answers p) (reviews request) (results resp)).
    { eapply Forall2_impl; [|exact Hall].
      intros review r Hr. apply analyze_sentiment_returns, Hr. }
    change (outcome (batch_loop p (batch_truncate request)
                       (reviews request) []))
      with (fst (batch_loop p (batch_truncate request) (reviews request) [])).
    pose proof (batch_loop_succeeds p (batch_truncate request) _ _ Hans [])
      as Hok.
    unfold outcome in Hok. rewrite Hok. destruct resp. reflexivity.
Qed.

Lemma batch_agrees_with_single_witness :
  outcome (analyze_batch (model_says "POSITIVE" (9 # 10)) mixed_batch)
  = inr mixed_batch_response.
Proof.
  apply (proj2 (batch_agrees_with_single (model_says "POSITIVE" (9 # 10))
                  mixed_batch mixed_batch_response)).
  repeat (apply Forall2_cons; [vm_compute; reflexivity|]).
  apply Forall2_nil.
Defined.

(** X13.  A review makes the same text reach the model on both paths: the
    500 words of the single-item handler are cut to 250 by [analyze]. *)
Theorem same_text_reaches_model
  (p : pipeline_t) (review : ReviewRequest) (g : bool) :
  model_texts (calls (analyze_sentiment p review))
  = model_texts (calls (analyze_batch p {| reviews := [review];
                                           batch_truncate := g |})).
Proof.
  rewrite analyze_sentiment_eq, analyze_batch_eq.
  cbn [calls snd reviews batch_truncate].
  rewrite batch_loop_cons. destruct (rejected review); [reflexivity|].
  rewrite analyze_eq. unfold bind.
  destruct (p (model_input (submitted 250 review))); simpl;
    rewrite model_input_500_250; reflexivity.
Qed.

(** X14.  A batch that returns has one result per review, in the order of
    the reviews, each carrying its review's [review_id] and [source] and the
    flag [truncated] computed from the review alone. *)
Theorem batch_response_echoes
  (p : pipeline_t) (request : BatchReviewRequest)
  (resp : BatchSentimentResponse) :
  outcome (analyze_batch p request) = inr resp ->
  Forall2 echoes (reviews request) (results resp)
  /\ length (results resp) = length (reviews request).
Proof.
  rewrite analyze_batch_eq. cbn [outcome fst].
  destruct (outcome (batch_loop p _ _ _)) as [[st d|m]|rs] eqn:Hloop;
    try discriminate.
  intros [= <-]. cbn [results].
  destruct (batch_loop_returns p _ _ _ _ Hloop) as (rs' & -> & Hall & _).
  simpl. split.
  - eapply Forall2_impl; [|exact Hall].
    intros review r (_ & result & _ & ->). repeat split.
  - symmetry. apply (Forall2_length Hall).
Qed.

Lemma batch_response_echoes_witness :
  Forall2 echoes (reviews mixed_batch) (results mixed_batch_response)
  /\ length (results mixed_batch_response) = length (reviews mixed_batch).
Proof.
  apply (batch_response_echoes (model_says "POSITIVE" (9 # 10))).
  vm_compute. reflexivity.
Defined.

(** ** The analyzer *)

(** X15.  When the model answers with a score in [0,1], the confidence and
    both detailed scores lie in [0,1], and the normalised score lies in
    [-1,1] and is the confidence or its opposite. *)
Theorem analysis_within_ranges
  (p : pipeline_t) (t : list ascii) (result : RawResult) :
  p (model_input t) = inr result ->
  (0 <= score result)%Q -> (score result <= 1)%Q ->
  exists a,
    outcome (analyze p t) = inr a
    /\ (0 <= res_confidence a)%Q /\ (res_confidence a <= 1)%Q
    /\ (-1 <= res_normalized_score a)%Q /\ (res_normalized_score a <= 1)%Q
    /\ (res_normalized_score a = res_confidence a
        \/ res_normalized_score a = (- res_confidence a)%Q)
    /\ Forall (fun kv => (0 <= snd kv)%Q /\ (snd kv <= 1)%Q)
         (res_detailed_scores a).
Proof.
  intros Hp Hlo Hhi. rewrite analyze_eq, Hp. cbn [outcome fst].
  exists (results_of result). split; [reflexivity|].
  assert (Hlo' : (0 <= 1 - score result)%Q) by lra.
  assert (Hhi' : (1 - score result <= 1)%Q) by lra.
  assert (Hneg : (-1 <= - score result)%Q) by lra.
  assert (Hneg' : (- score result <= 1)%Q) by lra.
  assert (Hpos : (-1 <= score result)%Q) by lra.
  destruct (str_eqb (label result) (str "POSITIVE")) eqn:Hlabel.
  - rewrite (results_of_positive result Hlabel). simpl.
    repeat split; auto.
  - rewrite (results_of_negative result Hlabel). simpl.
    repeat split; auto.
Qed.

Lemma analysis_within_ranges_witness :
  exists a,
    outcome (analyze (model_says "NEGATIVE" (3 # 4)) (str "poor quality"))
    = inr a
    /\ (0 <= res_confidence a)%Q /\ (res_confidence a <= 1)%Q
    /\ (-1 <= res_normalized_score a)%Q /\ (res_normalized_score a <= 1)%Q
    /\ (res_normalized_score a = res_confidence a
        \/ res_normalized_score a = (- res_confidence a)%Q)
    /\ Forall (fun kv => (0 <= snd kv)%Q /\ (snd kv <= 1)%Q)
         (res_detailed_scores a).
Proof.
  apply (analysis_within_ranges (model_says "NEGATIVE" (3 # 4))
           (str "poor quality")
           {| label := str "NEGATIVE"; score := 3 # 4 |}).
  - reflexivity.
  - vm_compute. discriminate.
  - vm_compute. discriminate.
Defined.

(** X16.  The sentiment is positive exactly when the model's label is the
    string [POSITIVE], and negative for every other label; and when the
    score exceeds one half, the detailed score of the reported sentiment is
    the larger of the two. *)
Theorem sentiment_follows_label
  (p : pipeline_t) (t : list ascii) (result : RawResult) :
  p (model_input t) = inr result ->
  exists a pos neg,
    outcome (analyze p t) = inr a
    /\ (res_sentiment a = str "positive" <-> label result = str "POSITIVE")
    /\ (res_sentiment a = str "negative" <-> label result <> str "POSITIVE")
    /\ dict_get (res_detailed_scores a) (str "POSITIVE") = Some pos
    /\ dict_get (res_detailed_scores a) (str "NEGATIVE") = Some neg
    /\ ((1 # 2 < score result)%Q ->
        if str_eqb (res_sentiment a) (str "positive")
        then (neg < pos)%Q else (pos < neg)%Q).
Proof.
  intros Hp. rewrite analyze_eq, Hp. cbn [outcome fst].
  assert (Hhalf : (1 # 2 < score result)%Q ->
                  (1 - score result < score result)%Q) by (intros H; lra).
  exists (results_of result).
  destruct (str_eqb (label result) (str "POSITIVE")) eqn:Hlabel.
  - rewrite (results_of_positive result Hlabel).
    apply str_eqb_eq in Hlabel.
    exists (score result), (1 - score result)%Q. cbn [res_sentiment
      res_detailed_scores].
    split; [reflexivity|]. split; [split; auto|].
    split; [split; [discriminate | intros H; contradiction]|].
    split; [reflexivity|]. split; [reflexivity|].
    intros H. exact (Hhalf H).
  - rewrite (results_of_negative result Hlabel).
    assert (Hne : label result <> str "POSITIVE").
    { intros E. apply str_eqb_eq in E. congruence. }
    exists (1 - score result)%Q, (score result). cbn [res_sentiment
      res_detailed_scores].
    split; [reflexivity|].
    split; [split; [discriminate | intros H; contradiction]|].
    split; [split; auto|].
    split; [reflexivity|]. split; [reflexivity|].
    intros H. exact (Hhalf H).
Qed.

Lemma sentiment_follows_label_witness :
  exists a pos neg,
    outcome (analyze (model_says "neutral" (3 # 4)) (str "it is ok"))
    = inr a
    /\ (res_sentiment a = str "positive" <-> str "neutral" = str "POSITIVE")
    /\ (res_sentiment a = str "negative" <-> str "neutral" <> str "POSITIVE")
    /\ dict_get (res_detailed_scores a) (str "POSITIVE") = Some pos
    /\ dict_get (res_detailed_scores a) (str "NEGATIVE") = Some neg
    /\ ((1 # 2 < 3 # 4)%Q ->
        if str_eqb (res_sentiment a) (str "positive")
        then (neg < pos)%Q else (pos < neg)%Q).
Proof.
  apply (sentiment_follows_label (model_says "neutral" (3 # 4))
           (str "it is ok") {| label := str "neutral"; score := 3 # 4 |}).
  reflexivity.
Defined.

(** ** Validation of request bodies *)




(** ** Errors *)

(** X19.  When the single-item handler fails, either the text as received
    has more than 250 words and [truncate] is false, the error is the 400
    error and no call was made, or the review passed the length check, the
    model raised, and the error is a 500 error carrying the model's
    message. *)
Theorem analyze_sentiment_errors
  (p : pipeline_t) (review : ReviewRequest) (e : exn) :
  outcome (analyze_sentiment p review) = inl e ->
  (e = HTTPException 400 SINGLE_LIMIT_DETAIL
   /\ 250 < word_count (text review) /\ truncate review = false
   /\ calls (analyze_sentiment p review) = [])
  \/ (exists message,
         e = HTTPException 500 (str "Error analyzing sentiment: " ++ message)
         /\ p (model_input (submitted 500 review)) = inl message
         /\ rejected review = false).
Proof.
  rewrite analyze_sentiment_eq. destruct (rejected review) eqn:Hrej.
  - intros [= <-]. left. unfold rejected, too_long in Hrej.
    apply andb_true_iff in Hrej as [Hlong Htrunc].
    apply Nat.ltb_lt in Hlong. apply negb_true_iff in Htrunc. auto.
  - cbn [outcome fst calls snd].
    destruct (p (model_input (submitted 500 review))) as [m|result];
      [|discriminate].
    intros [= <-]. right. exists m. auto.
Qed.

Lemma analyze_sentiment_errors_witness :
  (HTTPException 500 (str "Error analyzing sentiment: CUDA out of memory")
   = HTTPException 400 SINGLE_LIMIT_DETAIL
   /\ 250 < word_count (text short_review) /\ truncate short_review = false
   /\ calls (analyze_sentiment model_fails short_review) = [])
  \/ (exists message,
         HTTPException 500 (str "Error analyzing sentiment: CUDA out of memory")
         = HTTPException 500 (str "Error analyzing sentiment: " ++ message)
         /\ model_fails (model_input (submitted 500 short_review))
            = inl message
         /\ rejected short_review = false).
Proof.
  apply (analyze_sentiment_errors model_fails short_review).
  vm_compute. reflexivity.
Defined.

(** X20.  When the batch handler fails, either one of the reviews has more
    than 250 words as received and [truncate] false, and the error is the 400
    error naming that review, or the model raised on one of the reviews, and
    the error is a 500 error carrying the model's message. *)
Theorem analyze_batch_errors
  (p : pipeline_t) (request : BatchReviewRequest) (e : exn) :
  outcome (analyze_batch p request) = inl e ->
  (exists review,
      In review (reviews request)
      /\ 250 < word_count (text review) /\ truncate review = false
      /\ e = HTTPException 400 (batch_limit_detail (review_id review)))
  \/ (exists review message,
         In review (reviews request)
         /\ p (model_input (submitted 250 review)) = inl message
         /\ e = HTTPException 500
                  (str "Error analyzing batch sentiment: " ++ message)).
Proof.
  rewrite analyze_batch_eq. cbn [outcome fst].
  destruct (outcome (batch_loop p _ _ _)) as [e0|rs] eqn:Hloop.
  - apply batch_loop_errors in Hloop
      as [(rv & Hin & Hrej & ->)|(rv & m & Hin & _ & Hp & ->)].
    + intros [= <-]. left. exists rv.
      unfold rejected, too_long in Hrej.
      apply andb_true_iff in Hrej as [Hlong Htrunc].
      apply Nat.ltb_lt in Hlong. apply negb_true_iff in Htrunc. auto.
    + intros [= <-]. right. exists rv, m. auto.
  - discriminate.
Qed.

Lemma analyze_batch_errors_witness :
  let e := HTTPException 400 (batch_limit_detail (Some (str "long1"))) in
  let request := {| reviews := [short_review; long_review false];
                    batch_truncate := true |} in
  (exists review,
      In review (reviews request)
      /\ 250 < word_count (text review) /\ truncate review = false
      /\ e = HTTPException 400 (batch_limit_detail (review_id review)))
  \/ (exists review message,
         In review (reviews request)
         /\ model_says "POSITIVE" (9 # 10)
              (model_input (submitted 250 review)) = inl message
         /\ e = HTTPException 500
                  (str "Error analyzing batch sentiment: " ++ message)).
Proof.
  intros e request.
  apply (analyze_batch_errors (model_says "POSITIVE" (9 # 10)) request e).
  vm_compute. reflexivity.
Defined.

(** ** Calls *)

(** X21.  The batch handler works through the reviews in order and stops at
    the first failure: its calls are those of the first [k] reviews, one
    call of the analyzer and one of the model for each, and [k] is the
    number of reviews when it returns a response. *)
Theorem batch_calls_in_order (p : pipeline_t) (request : BatchReviewRequest) :
  exists k,
    k <= length (reviews request)
    /\ calls (analyze_batch p request)
       = flat_map (item_calls 250) (firstn k (reviews request))
    /\ length (model_texts (calls (analyze_batch p request))) = k
    /\ (forall resp, outcome (analyze_batch p request) = inr resp ->
                     k = length (reviews request)).
Proof.
  rewrite analyze_batch_eq. cbn [outcome calls fst snd].
  destruct (batch_loop_calls_prefix p (batch_truncate request)
              (reviews request) []) as (k & Hk & Hcalls & Hall).
  unfold calls in *.
  exists k. split; [exact Hk|]. split; [exact Hcalls|]. split.
  - rewrite Hcalls, model_texts_item_calls, length_map, length_firstn. lia.
  - intros resp Hresp.
    destruct (outcome (batch_loop p _ _ _)) as [[st d|m]|rs] eqn:Hloop;
      try discriminate.
    apply (Hall rs). reflexivity.
Qed.

(** X22.  When the model always answers, a review that passes the length
    check gets a response from the single-item handler, and a batch of such
    reviews gets a response with one result per review. *)
Theorem answered_when_not_rejected (p : pipeline_t) :
  (forall t, exists result, p t = inr result) ->
  (forall review, rejected review = false ->
                  exists r, outcome (analyze_sentiment p review) = inr r)
  /\ (forall request,
         Forall (fun review => rejected review = false) (reviews request) ->
         exists resp, outcome (analyze_batch p request) = inr resp
                      /\ length (results resp) = length (reviews request)).
Proof.
  intros Htotal.
  assert (Hone : forall review, rejected review = false ->
                                exists r, answers p review r).
  { intros review Hrej.
    destruct (Htotal (model_input (submitted 250 review))) as (result & Hp).
    eexists. split; [exact Hrej|]. eauto. }
  split.
  - intros review Hrej. destruct (Hone review Hrej) as (r & Hr).
    exists r. apply analyze_sentiment_returns, Hr.
  - intros request Hall.
    assert (Hrs : exists rs, Forall2 (answers p) (reviews request) rs).
    { induction Hall as [|review l Hrej _ (rs & IH)].
      - exists []. constructor.
      - destruct (Hone review Hrej) as (r & Hr). exists (r :: rs).
        constructor; assumption. }
    destruct Hrs as (rs & Hrs). exists {| results := rs |}.
    rewrite analyze_batch_eq.
    rewrite (batch_loop_succeeds p (batch_truncate request) _ _ Hrs []).
    cbn [outcome fst results app]. split; [reflexivity|].
    symmetry. apply (Forall2_length Hrs).
Qed.

Lemma answered_when_not_rejected_witness :
  exists resp,
    outcome (analyze_batch (model_says "POSITIVE" (9 # 10)) mixed_batch)
    = inr resp
    /\ length (results resp) = length (reviews mixed_batch).
Proof.
  refine (proj2 (answered_when_not_rejected
                   (model_says "POSITIVE" (9 # 10)) _) mixed_batch _).
  - intros t. eexists. reflexivity.
  - repeat constructor.
Defined.

(** X23.  A review whose text is made only of whitespace and of characters
    that normalisation deletes is not turned away once it has passed the
    length check: the analyzer and the model are called on the empty
    string. *)
Theorem empty_text_reaches_model (p : pipeline_t) (review : ReviewRequest) :
  Forall leaves_nothing (text review) ->
  rejected review = false ->
  calls (analyze_sentiment p review) = [AnalyzeCall []; PipelineCall []]
  /\ forall g, calls (analyze_batch p {| reviews := [review];
                                         batch_truncate := g |})
               = [AnalyzeCall []; PipelineCall []].
Proof.
  intros Hblank Hrej.
  assert (Hsub : forall n, submitted n review = []).
  { intros n. unfold submitted.
    rewrite (blank_text_normalises_to_empty _ Hblank).
    destruct (too_long review && truncate review); [|reflexivity].
    unfold first_words. cbn [split]. rewrite firstn_nil. reflexivity. }
  split.
  - rewrite analyze_sentiment_eq, Hrej. unfold item_calls.
    rewrite Hsub. reflexivity.
  - intros g. rewrite analyze_batch_eq. cbn [calls snd reviews batch_truncate].
    rewrite batch_loop_cons, Hrej, analyze_eq, Hsub. unfold bind.
    destruct (p (model_input [])); reflexivity.
Qed.

Lemma empty_text_reaches_model_witness :
  calls (analyze_sentiment (model_says "POSITIVE" (9 # 10)) symbols_review)
  = [AnalyzeCall []; PipelineCall []]
  /\ forall g, calls (analyze_batch (model_says "POSITIVE" (9 # 10))
                        {| reviews := [symbols_review];
                           batch_truncate := g |})
               = [AnalyzeCall []; PipelineCall []].
Proof.
  apply empty_text_reaches_model.
  - unfold leaves_nothing.
    repeat (apply Forall_cons; [vm_compute; auto|]). apply Forall_nil.
  - reflexivity.
Defined.
